(** * Credential core of the biometric / password authentication API

    A shallow embedding of [UserService] (user.service.ts), [AuthService]
    (auth.service.ts) and [UserResolver] (user.resolver.ts), and the
    properties of their credential matching.

    Every method of the three classes is [async]; inside one call the
    awaits run one after the other, so a call is a function from the
    database state to an outcome and a new database state.  [run]
    composes calls that do not overlap; [interleave] also lets an
    [addBiometricKey] be suspended between its scan and its write while
    other calls go on. *)

From Stdlib Require Import String Ascii List ZArith Bool Arith Lia.
From Stdlib Require Import Permutation.
Import ListNotations.

Local Open Scope string_scope.
Local Open Scope list_scope.

(** ** Data model *)

(** [class User] of user.model.ts.  [password] and [biometricKeys] carry the
    [?] marker there, so both may be [undefined]; the two [Date]s are
    logical write times. *)
Module User.
Record t := mk {
  id : Z;
  email : string;
  password : option string;
  biometricKeys : option (list string);
  createdAt : nat;
  updatedAt : nat
}.
End User.

(** The claims object built by [AuthService.login]. *)
Record JwtPayload := mkJwtPayload { payload_email : string; sub : Z }.

(** [AuthResponse]: the shape [{ access_token }] returned by the logins. *)
Record AuthResponse := mkAuthResponse { access_token : string }.

(** What a rejected promise carries. *)
Inductive exception :=
| ConflictException (message : string)
| BadRequestException (message : string)
| PrismaClientKnownRequestError (code : string)
| TypeError (message : string)
| Error (message : string).

Inductive result (A : Type) :=
| Ok (value : A)
| Err (reason : exception).
Arguments Ok {A} value.
Arguments Err {A} reason.

(** ** The database *)

(** Modelled from the spec: the table behind [prisma.user] (PrismaService and
    the Prisma schema are not among the sources).  [rows] is the table in the
    order [findMany] enumerates it, [nextId] the identifier the store assigns
    to the next record, [clock] the logical time of the next write. *)
Record Store := mkStore {
  rows : list User.t;
  nextId : Z;
  clock : nat
}.

Definition emptyStore : Store := mkStore [] 1 0.

(** ** Promises: state passing with rejection *)

Definition Promise (A : Type) : Type := Store -> result A * Store.

Definition resolve {A} (a : A) : Promise A := fun s => (Ok a, s).

Definition throw {A} (e : exception) : Promise A := fun s => (Err e, s).

Definition bind {A B} (m : Promise A) (k : A -> Promise B) : Promise B :=
  fun s =>
    match m s with
    | (Ok a, s') => k a s'
    | (Err e, s') => (Err e, s')
    end.

Definition try_catch {A} (body : Promise A) (handler : exception -> Promise A)
  : Promise A :=
  fun s =>
    match body s with
    | (Ok a, s') => (Ok a, s')
    | (Err e, s') => handler e s'
    end.

Declare Scope promise_scope.
Delimit Scope promise_scope with promise.
Notation "x <- m ;; k" := (bind m (fun x => k))
  (at level 61, m at next level, right associativity) : promise_scope.
Local Open Scope promise_scope.

(** ** JavaScript idioms the services rely on *)

(** [v || []] on a possibly undefined array (an array, even an empty one, is
    truthy). *)
Definition or_empty {A} (v : option (list A)) : list A :=
  match v with
  | Some l => l
  | None => []
  end.

(** The head of [for (const x of v)]: iterating [undefined] throws. *)
Definition iterate {A} (v : option (list A)) : Promise (list A) :=
  match v with
  | Some l => resolve l
  | None => throw (TypeError "undefined is not iterable")
  end.

(** [Array.prototype.includes] on strings: strict equality. *)
Definition includes (l : list string) (x : string) : bool :=
  existsb (String.eqb x) l.

(** ** Injected collaborators *)

(** bcryptjs.  [hash] draws a fresh salt on every call: the salt is the
    extra argument.  [compare] is deterministic, and a string that is no
    hash verifies against nothing. *)
Class Bcrypt := {
  Salt : Type;
  bcrypt_hash : string -> nat -> Salt -> string;
  bcrypt_compare : string -> string -> bool
}.

(** [JwtService.sign] with the secret and the one hour validity it was
    configured with. *)
Class JwtService := {
  jwt_sign : JwtPayload -> string
}.

(** [bcrypt.compare(s, hash)] as the services call it: bcryptjs rejects when
    an argument is not a string. *)
Definition bcrypt_compare_async `{Bcrypt} (s : string) (hash : option string)
  : Promise bool :=
  match hash with
  | Some h => resolve (bcrypt_compare s h)
  | None => throw (Error "Illegal arguments: string, undefined")
  end.

(** ** The store accessor *)

Module Prisma.

Definition has_email (email : string) (u : User.t) : bool :=
  String.eqb (User.email u) email.

Definition has_id (id : Z) (u : User.t) : bool :=
  Z.eqb (User.id u) id.

(** Modelled from the spec: [findMany() -> sequence of User]. *)
Definition findMany : Promise (list User.t) :=
  fun s => (Ok (rows s), s).

(** Modelled from the spec: [findUnique(by: {email}) -> User | absent]. *)
Definition findUnique_email (email : string) : Promise (option User.t) :=
  fun s => (Ok (find (has_email email) (rows s)), s).

(** Modelled from the spec: [findUnique(by: {id}) -> User | absent]. *)
Definition findUnique_id (id : Z) : Promise (option User.t) :=
  fun s => (Ok (find (has_id id) (rows s)), s).

(** Modelled from the spec: [create(data) -> User], which fails if email
    uniqueness is violated; the store assigns [id] and the timestamps. *)
Definition create (email password : string) (biometricKeys : list string)
  : Promise User.t :=
  fun s =>
    if existsb (has_email email) (rows s)
    then (Err (PrismaClientKnownRequestError "P2002"), s)
    else
      let user :=
        User.mk (nextId s) email (Some password) (Some biometricKeys)
                (clock s) (clock s) in
      (Ok user, mkStore (rows s ++ [user]) (nextId s + 1) (S (clock s))).

(** The record [user] after [biometricKeys: { push: key }] at time [now]. *)
Definition pushed (key : string) (now : nat) (user : User.t) : User.t :=
  User.mk (User.id user) (User.email user) (User.password user)
          (Some (match User.biometricKeys user with
                 | Some keys => keys ++ [key]
                 | None => [key]
                 end))
          (User.createdAt user) now.

(** Rewrites in place the record identified by [id], if there is one. *)
Fixpoint push_where (id : Z) (key : string) (now : nat) (l : list User.t)
  : option (User.t * list User.t) :=
  match l with
  | [] => None
  | user :: rest =>
      if has_id id user
      then Some (pushed key now user, pushed key now user :: rest)
      else match push_where id key now rest with
           | Some (updated, rest') => Some (updated, user :: rest')
           | None => None
           end
  end.

(** Modelled from the spec: [update(by: {id}, data: {appendBiometricKeyHash})
    -> User].  There is no user to return when no record has the id: the
    call is rejected and nothing is written. *)
Definition update_push (id : Z) (key : string) : Promise User.t :=
  fun s =>
    match push_where id key (clock s) (rows s) with
    | Some (updated, rows') =>
        (Ok updated, mkStore rows' (nextId s) (S (clock s)))
    | None => (Err (PrismaClientKnownRequestError "P2025"), s)
    end.

End Prisma.

(** ** user.service.ts *)

Module UserService.
Section WithBcrypt.
Context `{Bcrypt}.

Definition findByEmail (email : string) : Promise (option User.t) :=
  Prisma.findUnique_email email.

Definition findAll : Promise (list User.t) :=
  Prisma.findMany.

Definition createUser (salt : Salt) (email password : string)
  : Promise User.t :=
  existingUser <- findByEmail email ;;
  match existingUser with
  | Some _ => throw (ConflictException "User already exists")
  | None =>
      let hashedPassword := bcrypt_hash password 10 salt in
      Prisma.create email hashedPassword []
  end.

(** The inner loop shared by the two scans: the first stored key that
    verifies ends it. *)
Fixpoint forStoredKeys (biometricKey : string) (storedKeys : list string)
  : Promise bool :=
  match storedKeys with
  | [] => resolve false
  | storedKey :: rest =>
      isMatch <- bcrypt_compare_async biometricKey (Some storedKey) ;;
      if isMatch then resolve true else forStoredKeys biometricKey rest
  end.

(** The outer loop of [findUserByBiometricKey]. *)
Fixpoint forUsers (biometricKey : string) (users : list User.t)
  : Promise (option User.t) :=
  match users with
  | [] => resolve None
  | user :: rest =>
      storedKeys <- iterate (Some (or_empty (User.biometricKeys user))) ;;
      found <- forStoredKeys biometricKey storedKeys ;;
      if found then resolve (Some user) else forUsers biometricKey rest
  end.

Definition findUserByBiometricKey (biometricKey : string)
  : Promise (option User.t) :=
  users <- Prisma.findMany ;;
  forUsers biometricKey users.

Definition addBiometricKey (salt : Salt) (userId : Z) (biometricKey : string)
  : Promise User.t :=
  let hashedBiometricKey := bcrypt_hash biometricKey 10 salt in
  existingUser <- findUserByBiometricKey biometricKey ;;
  match existingUser with
  | Some _ =>
      throw (ConflictException "Biometric key already exists for another user")
  | None => Prisma.update_push userId hashedBiometricKey
  end.

Definition biometricKeyExists (userId : Z) (biometricKey : string)
  : Promise bool :=
  user <- Prisma.findUnique_id userId ;;
  match user with
  | Some u =>
      match User.biometricKeys u with
      | Some keys =>
          storedKeys <- iterate (Some keys) ;;
          forStoredKeys biometricKey storedKeys
      | None => resolve false
      end
  | None => resolve false
  end.

End WithBcrypt.
End UserService.

(** ** auth.service.ts *)

Module AuthService.
Section WithServices.
Context `{Bcrypt} `{JwtService}.

Definition validateUser (email password : string)
  : Promise (option User.t) :=
  user <- UserService.findByEmail email ;;
  match user with
  | Some u =>
      matches <- bcrypt_compare_async password (User.password u) ;;
      if matches then resolve (Some u) else resolve None
  | None => resolve None
  end.

Definition login (user : User.t) : Promise AuthResponse :=
  let payload := mkJwtPayload (User.email user) (User.id user) in
  let access_token := jwt_sign payload in
  resolve (mkAuthResponse access_token).

Definition biometricLogin (biometricKey : string) : Promise AuthResponse :=
  user <- UserService.findUserByBiometricKey biometricKey ;;
  match user with
  | None => throw (BadRequestException "Invalid biometric key")
  | Some u => login u
  end.

End WithServices.
End AuthService.

(** ** user.resolver.ts *)

Module UserResolver.
Section WithServices.
Context `{Bcrypt} `{JwtService}.

Definition register (salt : Salt) (email password : string)
  : Promise string :=
  try_catch
    (user <- UserService.createUser salt email password ;;
     resolve ("User " ++ User.email user ++ " registered successfully")%string)
    (fun error =>
       match error with
       | ConflictException _ => throw (ConflictException "User already exists")
       | _ => throw (BadRequestException "Registration failed")
       end).

Definition registerWithBiometric (salt : Salt)
           (email password biometricKey : string) : Promise string :=
  try_catch
    (user <- AuthService.validateUser email password ;;
     match user with
     | None => throw (BadRequestException "Invalid email or password")
     | Some u =>
         let biometricKeys := or_empty (User.biometricKeys u) in
         if includes biometricKeys biometricKey
         then throw (BadRequestException "Biometric key already registered")
         else
           _ <- UserService.addBiometricKey salt (User.id u) biometricKey ;;
           resolve ("Biometric key added successfully for "
                      ++ User.email u)%string
     end)
    (fun _ => throw (BadRequestException "Failed to set up biometric key")).

Definition biometricLogin (biometricKey : string) : Promise AuthResponse :=
  try_catch
    (response <- AuthService.biometricLogin biometricKey ;;
     resolve (mkAuthResponse (access_token response)))
    (fun _ => throw (BadRequestException "Login failed")).

Definition login (email password : string) : Promise AuthResponse :=
  try_catch
    (user <- AuthService.validateUser email password ;;
     match user with
     | None => throw (BadRequestException "Invalid email or password")
     | Some u => AuthService.login u
     end)
    (fun _ => throw (BadRequestException "Login failed")).

Definition users : Promise (list User.t) := UserService.findAll.

Definition user (email : string) : Promise (option User.t) :=
  UserService.findByEmail email.

End WithServices.
End UserResolver.

(** ** Vocabulary of the properties *)

(** The biometric-hash sequence of a record, as both scans read it. *)
Definition storedKeys (u : User.t) : list string :=
  or_empty (User.biometricKeys u).

(** Some stored hash of [u] verifies against [plaintext]. *)
Definition verifies `{Bcrypt} (plaintext : string) (u : User.t) : bool :=
  existsb (bcrypt_compare plaintext) (storedKeys u).

(** The records of the store that [plaintext] resolves to. *)
Definition matchingUsers `{Bcrypt} (plaintext : string) (s : Store)
  : list User.t :=
  filter (verifies plaintext) (rows s).

(** A record with an absent [biometricKeys] read as one with no keys. *)
Definition withKeys (u : User.t) : User.t :=
  User.mk (User.id u) (User.email u) (User.password u)
          (Some (storedKeys u)) (User.createdAt u) (User.updatedAt u).

Definition withKeysStore (s : Store) : Store :=
  mkStore (map withKeys (rows s)) (nextId s) (clock s).

(** What the [catch] of [registerWithBiometric] throws for every failure. *)
Definition setupFailed : exception :=
  BadRequestException "Failed to set up biometric key".

(** ** Sequences of calls *)

Section Calls.
Context `{Bcrypt} `{JwtService}.

(** The calls that reach the store: the four mutations of the resolver and
    the two writing methods of [UserService] called directly. *)
Inductive call :=
| Register (salt : Salt) (email password : string)
| RegisterWithBiometric (salt : Salt) (email password biometricKey : string)
| Login (email password : string)
| BiometricLogin (biometricKey : string)
| CreateUser (salt : Salt) (email password : string)
| AddBiometricKey (salt : Salt) (userId : Z) (biometricKey : string).

(** The store a call leaves behind, whether it resolves or rejects. *)
Definition after (s : Store) (c : call) : Store :=
  match c with
  | Register salt email password =>
      snd (UserResolver.register salt email password s)
  | RegisterWithBiometric salt email password biometricKey =>
      snd (UserResolver.registerWithBiometric salt email password biometricKey s)
  | Login email password =>
      snd (UserResolver.login email password s)
  | BiometricLogin biometricKey =>
      snd (UserResolver.biometricLogin biometricKey s)
  | CreateUser salt email password =>
      snd (UserService.createUser salt email password s)
  | AddBiometricKey salt userId biometricKey =>
      snd (UserService.addBiometricKey salt userId biometricKey s)
  end.

Definition run (calls : list call) (s : Store) : Store :=
  fold_left after calls s.

(** The three things a call can do to the store: leave it alone, add at the
    end a record with a password hash and no keys, or push the fresh hash of
    a key that verified against nothing. *)
Definition wrote (s s' : Store) : Prop :=
  s' = s \/
  (exists user,
      storedKeys user = [] /\ User.password user <> None /\
      rows s' = rows s ++ [user]) \/
  (exists salt key before target rest,
      find (verifies key) (rows s) = None /\
      rows s = before ++ target :: rest /\
      rows s' = before
                  ++ Prisma.pushed (bcrypt_hash key 10 salt) (clock s) target
                  :: rest).

End Calls.

(** ** A small instance to run the services on *)

Module Toy.

(** The salt is one character, put in front of the plaintext. *)
Definition hash (s : string) (rounds : nat) (salt : ascii) : string :=
  String salt s.

Definition compare (s hash : string) : bool :=
  match hash with
  | String _ digest => String.eqb s digest
  | EmptyString => false
  end.

Definition bcrypt : Bcrypt := Build_Bcrypt ascii hash compare.

Definition sign (payload : JwtPayload) : string :=
  ("jwt:" ++ payload_email payload)%string.

Definition jwt : JwtService := Build_JwtService sign.

Definition alice : User.t :=
  User.mk 1 "a@x.com" (Some "$pw1") (Some ["#bio1"]) 0 2.

Definition bob : User.t :=
  User.mk 2 "b@x.com" (Some "$pw2") (Some []) 1 1.

(** A record as the resolver tests mock it: no [biometricKeys] field. *)
Definition carol : User.t :=
  User.mk 3 "c@x.com" (Some "$pw3") None 3 3.

(** A record without a [password]. *)
Definition dave : User.t :=
  User.mk 4 "d@x.com" None (Some []) 4 4.

(** [alice] before her biometric key was added. *)
Definition alice0 : User.t :=
  User.mk 1 "a@x.com" (Some "$pw1") (Some []) 0 0.

(** A record holding a string that is no hash of itself. *)
Definition erin : User.t :=
  User.mk 1 "e@x.com" (Some "$pw5") (Some ["bio5"]) 0 1.

Definition registered : Store := mkStore [alice0; bob] 3 2.

Definition store2 : Store := mkStore [alice; bob] 3 3.

Definition storeErin : Store := mkStore [erin] 2 2.

Definition history : list (@call bcrypt) :=
  [@Register bcrypt "$"%char "a@x.com" "pw1";
   @Register bcrypt "$"%char "b@x.com" "pw2";
   @RegisterWithBiometric bcrypt "#"%char "a@x.com" "pw1" "bio1"].

Definition store3 : Store := mkStore [alice; bob; carol] 4 4.

Definition store4 : Store := mkStore [alice; bob; carol; dave] 5 5.

End Toy.

(** ** The effect of a call, record by record *)

Section Effects.
Context `{Bcrypt}.

(** The record [createUser] hands to the store accessor's [create]. *)
Definition created (s : Store) (salt : Salt) (email password : string)
  : User.t :=
  User.mk (nextId s) email (Some (bcrypt_hash password 10 salt)) (Some [])
          (clock s) (clock s).

(** What a call does to the store: nothing; or the creation of a record
    under an email no record had; or the push of the fresh hash of a key,
    which verified against nothing, to the first record with the target's
    id. *)
Definition effect (s s' : Store) : Prop :=
  s' = s \/
  (exists salt email password,
      find (Prisma.has_email email) (rows s) = None /\
      s' = mkStore (rows s ++ [created s salt email password])
                   (nextId s + 1) (S (clock s))) \/
  (exists salt key before target rest,
      find (verifies key) (rows s) = None /\
      rows s = before ++ target :: rest /\
      (forall y, In y before -> User.id y <> User.id target) /\
      s' = mkStore
             (before
                ++ Prisma.pushed (bcrypt_hash key 10 salt) (clock s) target
                :: rest)
             (nextId s) (S (clock s))).

(** [u'] is [u] with, at most, more keys at the end of its sequence. *)
Definition grown (u u' : User.t) : Prop :=
  User.id u' = User.id u /\
  User.email u' = User.email u /\
  User.password u' = User.password u /\
  User.createdAt u' = User.createdAt u /\
  exists more, storedKeys u' = storedKeys u ++ more.

(** The records of [s] are all in [s'], in their places and grown at most;
    what [s'] has more comes after them. *)
Definition appendOnly (s s' : Store) : Prop :=
  exists olds news,
    rows s' = olds ++ news /\ Forall2 grown (rows s) olds.

(** Every credential the record holds came out of [bcrypt.hash]. *)
Definition holdsHashes (u : User.t) : Prop :=
  (exists password salt,
      User.password u = Some (bcrypt_hash password 10 salt)) /\
  (exists keys,
      User.biometricKeys u = Some keys /\
      Forall (fun h => exists key salt, h = bcrypt_hash key 10 salt) keys).

(** The token [AuthService.login] issues for a record. *)
Definition tokenFor `{JwtService} (u : User.t) : AuthResponse :=
  mkAuthResponse (jwt_sign (mkJwtPayload (User.email u) (User.id u))).

End Effects.

(** The records of [s] are all among those of [s'], each one grown at most,
    wherever the store lists them. *)
Definition keepsRecords (s s' : Store) : Prop :=
  exists olds news,
    Permutation (rows s') (olds ++ news) /\ Forall2 grown (rows s) olds.

(** ** Calls that overlap *)

Section Overlap.
Context `{Bcrypt} `{JwtService}.

(** [addBiometricKey] up to [await this.findUserByBiometricKey(biometricKey)]:
    the call is suspended there and resumes with the answer of the scan. *)
Definition addBiometricKey_scan (biometricKey : string)
  : Promise (option User.t) :=
  UserService.findUserByBiometricKey biometricKey.

(** [addBiometricKey] from the test of [existingUser] to its end. *)
Definition addBiometricKey_write (salt : Salt) (userId : Z)
           (biometricKey : string) (existingUser : option User.t)
  : Promise User.t :=
  let hashedBiometricKey := bcrypt_hash biometricKey 10 salt in
  match existingUser with
  | Some _ =>
      throw (ConflictException "Biometric key already exists for another user")
  | None => Prisma.update_push userId hashedBiometricKey
  end.

(** An [addBiometricKey] suspended after its scan. *)
Record Suspended := mkSuspended {
  suspended_salt : Salt;
  suspended_userId : Z;
  suspended_key : string;
  suspended_existingUser : option User.t
}.

(** What the server does next: a whole call with nothing in between; the
    scan of a new [addBiometricKey], which is then suspended; or the rest of
    the [n]-th suspended [addBiometricKey]. *)
Inductive await :=
| Whole (c : call)
| Scan (salt : Salt) (userId : Z) (biometricKey : string)
| Write (n : nat).

Definition awaited (server : Store * list Suspended) (a : await)
  : Store * list Suspended :=
  let (s, suspended) := server in
  match a with
  | Whole c => (after s c, suspended)
  | Scan salt userId biometricKey =>
      match addBiometricKey_scan biometricKey s with
      | (Ok existingUser, s') =>
          (s', suspended
                 ++ [mkSuspended salt userId biometricKey existingUser])
      | (Err _, s') => (s', suspended)
      end
  | Write n =>
      match nth_error suspended n with
      | Some p =>
          (snd (addBiometricKey_write (suspended_salt p) (suspended_userId p)
                  (suspended_key p) (suspended_existingUser p) s),
           firstn n suspended ++ skipn (S n) suspended)
      | None => (s, suspended)
      end
  end.

(** The store after the awaits, from a server with nothing suspended. *)
Definition interleave (awaits : list await) (s : Store) : Store :=
  fst (fold_left awaited awaits (s, [])).

End Overlap.

(** alice and bob register, then both add [bio1]: the two scans run before
    either write. *)
Definition raceForBio1 : list (@await Toy.bcrypt) :=
  [Whole (@Register Toy.bcrypt "$"%char "a@x.com" "pw1");
   Whole (@Register Toy.bcrypt "$"%char "b@x.com" "pw2");
   @Scan Toy.bcrypt "#"%char 1%Z "bio1";
   @Scan Toy.bcrypt "%"%char 2%Z "bio1";
   Write 0;
   Write 0].

(** * Properties *)

Section Scans.
Context `{Bcrypt}.

(** The inner loop never rejects, leaves the store alone, and answers
    whether some stored key verifies. *)
Lemma forStoredKeys_resolves (biometricKey : string) (keys : list string)
      (s : Store) :
  UserService.forStoredKeys biometricKey keys s
  = (Ok (existsb (bcrypt_compare biometricKey) keys), s).
Proof.
  induction keys as [|storedKey rest IH]; simpl.
  - reflexivity.
  - unfold bind, bcrypt_compare_async, resolve.
    destruct (bcrypt_compare biometricKey storedKey); simpl.
    + reflexivity.
    + exact IH.
Qed.

Lemma forUsers_resolves (biometricKey : string) (users : list User.t)
      (s : Store) :
  UserService.forUsers biometricKey users s
  = (Ok (find (verifies biometricKey) users), s).
Proof.
  induction users as [|user rest IH]; simpl.
  - reflexivity.
  - unfold bind, iterate, resolve.
    rewrite forStoredKeys_resolves.
    unfold verifies, storedKeys.
    destruct (existsb _ _).
    + reflexivity.
    + exact IH.
Qed.

Lemma findUserByBiometricKey_resolves (biometricKey : string) (s : Store) :
  UserService.findUserByBiometricKey biometricKey s
  = (Ok (find (verifies biometricKey) (rows s)), s).
Proof.
  unfold UserService.findUserByBiometricKey, bind, Prisma.findMany.
  apply forUsers_resolves.
Qed.

Lemma verifies_true (plaintext : string) (u : User.t) :
  verifies plaintext u = true <->
  exists h, In h (storedKeys u) /\ bcrypt_compare plaintext h = true.
Proof.
  unfold verifies. apply existsb_exists.
Qed.

Lemma verifies_false (plaintext : string) (u : User.t) :
  verifies plaintext u = false <->
  forall h, In h (storedKeys u) -> bcrypt_compare plaintext h = false.
Proof.
  unfold verifies. split.
  - intros E h Hin.
    destruct (bcrypt_compare plaintext h) eqn:C; [|reflexivity].
    rewrite <- E. symmetry. apply existsb_exists. eauto.
  - intros E. destruct (existsb _ _) eqn:X; [|reflexivity].
    apply existsb_exists in X. destruct X as (h & Hin & C).
    rewrite (E h Hin) in C. discriminate.
Qed.

(** [find] returns the first element that passes the test. *)
Lemma find_first {A} (f : A -> bool) (l : list A) (x : A) :
  find f l = Some x <->
  exists before rest,
    l = before ++ x :: rest /\ f x = true /\
    forall y, In y before -> f y = false.
Proof.
  induction l as [|a l IH]; simpl.
  - split; [discriminate|].
    intros (before & rest & E & _). destruct before; discriminate.
  - destruct (f a) eqn:Fa.
    + split.
      * intros E. injection E as ->. exists [], l. simpl. intuition.
      * intros (before & rest & E & Fx & Hb).
        destruct before as [|b before]; simpl in E; injection E as -> ->.
        -- reflexivity.
        -- rewrite (Hb b) in Fa by (left; reflexivity). discriminate.
    + rewrite IH. split.
      * intros (before & rest & -> & Fx & Hb).
        exists (a :: before), rest. simpl. repeat split; trivial.
        intros y [<-|Hy]; auto.
      * intros (before & rest & E & Fx & Hb).
        destruct before as [|b before]; simpl in E; injection E as -> ->.
        -- rewrite Fx in Fa. discriminate.
        -- exists before, rest. repeat split; trivial.
           intros y Hy. apply Hb. right. exact Hy.
Qed.

Lemma find_absent {A} (f : A -> bool) (l : list A) :
  find f l = None <-> forall y, In y l -> f y = false.
Proof.
  split.
  - intros E y Hy. exact (find_none f l E y Hy).
  - intros E. destruct (find f l) eqn:F; [|reflexivity].
    apply find_some in F. destruct F as [Hin Fa].
    rewrite (E _ Hin) in Fa. discriminate.
Qed.

Lemma find_after {A} (f : A -> bool) (l l' : list A) :
  find f l = None -> find f (l ++ l') = find f l'.
Proof.
  induction l as [|a l IH]; simpl; [reflexivity|].
  destruct (f a); [discriminate|exact IH].
Qed.

(** C3: [findUserByBiometricKey] resolves, without touching the store, to
    the first record in enumeration order one of whose stored hashes verifies
    against the plaintext, every record before it having none; it resolves to
    absent exactly when no hash of any record verifies. *)
Theorem findUserByBiometricKey_first_match (biometricKey : string) (s : Store) :
  exists found,
    UserService.findUserByBiometricKey biometricKey s = (Ok found, s) /\
    (found = None <->
     forall u h, In u (rows s) -> In h (storedKeys u) ->
                 bcrypt_compare biometricKey h = false) /\
    (forall user,
        found = Some user <->
        exists before rest,
          rows s = before ++ user :: rest /\
          (exists h, In h (storedKeys user) /\
                     bcrypt_compare biometricKey h = true) /\
          (forall u h, In u before -> In h (storedKeys u) ->
                       bcrypt_compare biometricKey h = false)).
Proof.
  exists (find (verifies biometricKey) (rows s)).
  split; [apply findUserByBiometricKey_resolves|]. split.
  - rewrite find_absent. split.
    + intros E u h Hu Hh. exact (proj1 (verifies_false _ _) (E u Hu) h Hh).
    + intros E u Hu. apply verifies_false. intros h Hh. exact (E u h Hu Hh).
  - intros user. rewrite find_first. split.
    + intros (before & rest & E & V & Hb). exists before, rest.
      split; [exact E|]. split; [apply verifies_true; exact V|].
      intros u h Hu Hh. exact (proj1 (verifies_false _ _) (Hb u Hu) h Hh).
    + intros (before & rest & E & V & Hb). exists before, rest.
      split; [exact E|]. split; [apply verifies_true; exact V|].
      intros u Hu. apply verifies_false. intros h Hh. exact (Hb u h Hu Hh).
Qed.

End Scans.

(** ** The store accessor's update *)

Lemma pushed_id (key : string) (now : nat) (u : User.t) :
  User.id (Prisma.pushed key now u) = User.id u.
Proof. reflexivity. Qed.

Lemma pushed_storedKeys (key : string) (now : nat) (u : User.t) :
  storedKeys (Prisma.pushed key now u) = storedKeys u ++ [key].
Proof.
  unfold storedKeys, Prisma.pushed; simpl.
  destruct (User.biometricKeys u); reflexivity.
Qed.

Lemma push_where_some (id : Z) (key : string) (now : nat) (l : list User.t)
      (updated : User.t) (l' : list User.t) :
  Prisma.push_where id key now l = Some (updated, l') <->
  exists before target rest,
    l = before ++ target :: rest /\
    (forall y, In y before -> Prisma.has_id id y = false) /\
    Prisma.has_id id target = true /\
    updated = Prisma.pushed key now target /\
    l' = before ++ updated :: rest.
Proof.
  revert updated l'. induction l as [|a l IH]; intros updated l'; simpl.
  - split; [discriminate|].
    intros (before & target & rest & E & _). destruct before; discriminate.
  - destruct (Prisma.has_id id a) eqn:Ha.
    + split.
      * intros E. injection E as <- <-. exists [], a, l. simpl. intuition.
      * intros (before & target & rest & E & Hb & Ht & -> & ->).
        destruct before as [|b before]; simpl in E; injection E as -> ->.
        -- reflexivity.
        -- rewrite (Hb b) in Ha by (left; reflexivity). discriminate.
    + destruct (Prisma.push_where id key now l) as [[u0 l0]|] eqn:P.
      * split.
        -- intros E. injection E as <- <-.
           destruct (proj1 (IH u0 l0) eq_refl)
             as (before & target & rest & -> & Hb & Ht & Eu & ->).
           exists (a :: before), target, rest. simpl. repeat split; trivial.
           intros y [<-|Hy]; auto.
        -- intros (before & target & rest & E & Hb & Ht & Eu & ->).
           destruct before as [|b before]; simpl in E; injection E as -> ->.
           ++ rewrite Ht in Ha. discriminate.
           ++ assert (X : Some (u0, l0) = Some (updated, before ++ updated :: rest)).
              { apply IH. exists before, target, rest. repeat split; trivial.
                intros y Hy. apply Hb. right. exact Hy. }
              injection X as -> ->. reflexivity.
      * split; [discriminate|].
        intros (before & target & rest & E & Hb & Ht & Eu & ->).
        destruct before as [|b before]; simpl in E; injection E as -> ->.
        -- rewrite Ht in Ha. discriminate.
        -- assert (X : None = Some (updated, before ++ updated :: rest)).
           { apply IH. exists before, target, rest. repeat split; trivial.
             intros y Hy. apply Hb. right. exact Hy. }
           discriminate.
Qed.

Lemma push_where_target (id : Z) (key : string) (now : nat) (l : list User.t)
      (target : User.t) :
  find (Prisma.has_id id) l = Some target ->
  exists l',
    Prisma.push_where id key now l = Some (Prisma.pushed key now target, l') /\
    find (Prisma.has_id id) l' = Some (Prisma.pushed key now target).
Proof.
  induction l as [|a l IH]; simpl; [discriminate|].
  destruct (Prisma.has_id id a) eqn:Ha.
  - intros E. injection E as ->. eexists. split; [reflexivity|].
    simpl. unfold Prisma.has_id in *. rewrite pushed_id, Ha. reflexivity.
  - intros E. destruct (IH E) as (l' & P & F). rewrite P.
    eexists. split; [reflexivity|]. simpl. rewrite Ha. exact F.
Qed.

Lemma push_where_none (id : Z) (key : string) (now : nat) (l : list User.t) :
  find (Prisma.has_id id) l = None ->
  Prisma.push_where id key now l = None.
Proof.
  induction l as [|a l IH]; simpl; [reflexivity|].
  destruct (Prisma.has_id id a); [discriminate|].
  intros E. rewrite (IH E). reflexivity.
Qed.

(** ** user.service.ts *)

Section Credentials.
Context `{Bcrypt}.

Lemma createUser_run (salt : Salt) (email password : string) (s : Store) :
  UserService.createUser salt email password s
  = match find (Prisma.has_email email) (rows s) with
    | Some _ => (Err (ConflictException "User already exists"), s)
    | None => Prisma.create email (bcrypt_hash password 10 salt) [] s
    end.
Proof.
  unfold UserService.createUser, UserService.findByEmail, bind,
    Prisma.findUnique_email.
  destruct (find _ _); reflexivity.
Qed.

Lemma addBiometricKey_run (salt : Salt) (userId : Z) (biometricKey : string)
      (s : Store) :
  UserService.addBiometricKey salt userId biometricKey s
  = match find (verifies biometricKey) (rows s) with
    | Some _ =>
        (Err (ConflictException
                "Biometric key already exists for another user"), s)
    | None =>
        Prisma.update_push userId (bcrypt_hash biometricKey 10 salt) s
    end.
Proof.
  unfold UserService.addBiometricKey, bind.
  rewrite findUserByBiometricKey_resolves.
  destruct (find _ _); reflexivity.
Qed.

Lemma addBiometricKey_rejected (salt : Salt) (userId : Z)
      (biometricKey : string) (s : Store) (u : User.t) (h : string) :
  In u (rows s) -> In h (storedKeys u) ->
  bcrypt_compare biometricKey h = true ->
  UserService.addBiometricKey salt userId biometricKey s
  = (Err (ConflictException
            "Biometric key already exists for another user"), s).
Proof.
  intros Hin Hh C. rewrite addBiometricKey_run.
  destruct (find (verifies biometricKey) (rows s)) eqn:F; [reflexivity|].
  pose proof (find_none _ _ F u Hin) as X.
  apply verifies_false with (h := h) in X; [|exact Hh].
  rewrite X in C. discriminate.
Qed.

Lemma biometricKeyExists_run (userId : Z) (biometricKey : string) (s : Store) :
  UserService.biometricKeyExists userId biometricKey s
  = (Ok match find (Prisma.has_id userId) (rows s) with
        | Some u => verifies biometricKey u
        | None => false
        end, s).
Proof.
  unfold UserService.biometricKeyExists, bind, Prisma.findUnique_id.
  destruct (find _ _) as [u|]; [|reflexivity].
  unfold verifies, storedKeys.
  destruct (User.biometricKeys u) as [keys|]; simpl; [|reflexivity].
  apply forStoredKeys_resolves.
Qed.

Lemma existsb_has_email (email : string) (l : list User.t) :
  find (Prisma.has_email email) l = None ->
  existsb (Prisma.has_email email) l = false.
Proof.
  induction l as [|a l IH]; simpl; [reflexivity|].
  destruct (Prisma.has_email email a); [discriminate|exact IH].
Qed.

(** C6: when a record with the email exists, [createUser] is rejected with
    the conflict exception and the store it leaves is the store it found. *)
Theorem createUser_existing_email (salt : Salt) (email password : string)
        (s : Store) (existing : User.t) :
  In existing (rows s) ->
  User.email existing = email ->
  UserService.createUser salt email password s
  = (Err (ConflictException "User already exists"), s).
Proof.
  intros Hin He. rewrite createUser_run.
  destruct (find (Prisma.has_email email) (rows s)) eqn:F; [reflexivity|].
  pose proof (find_none _ _ F existing Hin) as X.
  unfold Prisma.has_email in X. rewrite He, String.eqb_refl in X.
  discriminate.
Qed.

(** C10: [biometricKeyExists] resolves to false for a [userId] that no record
    has, and for a record whose [biometricKeys] is absent;
    [findUserByBiometricKey] always resolves, and never to a record whose
    [biometricKeys] is absent; both answer on a store as they do on the store
    in which every absent [biometricKeys] is an empty sequence. *)
Theorem absent_biometricKeys_is_empty (userId : Z) (biometricKey : string)
        (s : Store) :
  ((forall u, In u (rows s) -> User.id u <> userId) ->
   UserService.biometricKeyExists userId biometricKey s = (Ok false, s)) /\
  (forall u,
      Prisma.findUnique_id userId s = (Ok (Some u), s) ->
      User.biometricKeys u = None ->
      UserService.biometricKeyExists userId biometricKey s = (Ok false, s)) /\
  (exists found,
      UserService.findUserByBiometricKey biometricKey s = (Ok found, s) /\
      (forall u, found = Some u -> User.biometricKeys u <> None) /\
      UserService.findUserByBiometricKey biometricKey (withKeysStore s)
      = (Ok (option_map withKeys found), withKeysStore s)) /\
  (exists answer,
      UserService.biometricKeyExists userId biometricKey s = (Ok answer, s) /\
      UserService.biometricKeyExists userId biometricKey (withKeysStore s)
      = (Ok answer, withKeysStore s)).
Proof.
  assert (V : forall u, verifies biometricKey (withKeys u)
                        = verifies biometricKey u) by reflexivity.
  repeat split.
  - intros Hno. rewrite biometricKeyExists_run.
    destruct (find (Prisma.has_id userId) (rows s)) as [u|] eqn:F;
      [|reflexivity].
    apply find_some in F. destruct F as [Hin Hid].
    apply Z.eqb_eq in Hid. destruct (Hno u Hin Hid).
  - intros u F Hnone. rewrite biometricKeyExists_run.
    unfold Prisma.findUnique_id in F. injection F as ->.
    unfold verifies, storedKeys. rewrite Hnone. reflexivity.
  - exists (find (verifies biometricKey) (rows s)).
    split; [apply findUserByBiometricKey_resolves|]. split.
    + intros u F Hnone. apply find_some in F. destruct F as [_ F].
      unfold verifies, storedKeys in F. rewrite Hnone in F. discriminate.
    + rewrite findUserByBiometricKey_resolves. f_equal. f_equal. simpl.
      induction (rows s) as [|a l IH]; simpl; [reflexivity|].
      rewrite V. destruct (verifies biometricKey a); [reflexivity|exact IH].
  - eexists. split; [apply biometricKeyExists_run|].
    rewrite biometricKeyExists_run. f_equal. f_equal. simpl.
    induction (rows s) as [|a l IH]; simpl; [reflexivity|].
    unfold Prisma.has_id at 1. simpl. fold (Prisma.has_id userId a).
    destruct (Prisma.has_id userId a); [apply V|exact IH].
Qed.

End Credentials.

Section Registration.
Context `{Bcrypt}.

(** C2: [addBiometricKey] is rejected with the conflict exception exactly
    when some stored hash of some record verifies against the plaintext,
    whether the record is the target's or another user's, and the rejected
    call leaves the store as it found it; when no stored hash verifies, the
    target record gets the new hash of the key at the end of its sequence,
    keeps its place and its other fields, and is the user returned. *)
Theorem addBiometricKey_conflict_or_append (salt : Salt) (userId : Z)
        (biometricKey : string) (s : Store) :
  (forall message,
      fst (UserService.addBiometricKey salt userId biometricKey s)
      = Err (ConflictException message) ->
      exists u h, In u (rows s) /\ In h (storedKeys u) /\
                  bcrypt_compare biometricKey h = true) /\
  (forall u h,
      In u (rows s) -> In h (storedKeys u) ->
      bcrypt_compare biometricKey h = true ->
      UserService.addBiometricKey salt userId biometricKey s
      = (Err (ConflictException
                "Biometric key already exists for another user"), s)) /\
  ((forall u h, In u (rows s) -> In h (storedKeys u) ->
                bcrypt_compare biometricKey h = false) ->
   forall target,
     Prisma.findUnique_id userId s = (Ok (Some target), s) ->
     exists updated before rest,
       UserService.addBiometricKey salt userId biometricKey s
       = (Ok updated,
          mkStore (before ++ updated :: rest) (nextId s) (S (clock s))) /\
       rows s = before ++ target :: rest /\
       (forall u, In u before -> User.id u <> userId) /\
       User.biometricKeys updated
       = Some (storedKeys target ++ [bcrypt_hash biometricKey 10 salt]) /\
       User.id updated = userId /\
       User.email updated = User.email target /\
       User.password updated = User.password target /\
       User.createdAt updated = User.createdAt target).
Proof.
  rewrite addBiometricKey_run. repeat split.
  - intros message E.
    destruct (find (verifies biometricKey) (rows s)) as [u|] eqn:F.
    + apply find_some in F. destruct F as [Hin V].
      apply verifies_true in V. destruct V as (h & Hh & C). eauto.
    + unfold Prisma.update_push in E.
      destruct (Prisma.push_where _ _ _ _) as [[u0 l0]|]; discriminate.
  - intros u h Hin Hh C. rewrite <- addBiometricKey_run.
    exact (addBiometricKey_rejected salt userId biometricKey s u h Hin Hh C).
  - intros Hno target F.
    assert (N : find (verifies biometricKey) (rows s) = None).
    { apply find_absent. intros u Hu. apply verifies_false.
      intros h Hh. exact (Hno u h Hu Hh). }
    rewrite N. unfold Prisma.findUnique_id in F. injection F as F.
    destruct (push_where_target userId (bcrypt_hash biometricKey 10 salt)
                (clock s) (rows s) target F) as (l' & P & _).
    pose proof P as Q. apply push_where_some in Q.
    destruct Q as (before & target' & rest & E & Hb & Ht & Eu & ->).
    assert (target' = target) as ->.
    { assert (X : find (Prisma.has_id userId) (rows s) = Some target').
      { apply find_first. exists before, rest. auto. }
      congruence. }
    exists (Prisma.pushed (bcrypt_hash biometricKey 10 salt) (clock s) target),
      before, rest.
    unfold Prisma.update_push. rewrite P. repeat split; trivial.
    + intros u Hu Hid. pose proof (Hb u Hu) as X.
      unfold Prisma.has_id in X. rewrite Hid, Z.eqb_refl in X. discriminate.
    + simpl. unfold storedKeys.
      destruct (User.biometricKeys target); reflexivity.
    + simpl. apply Z.eqb_eq. exact Ht.
Qed.

Hypothesis compare_hash :
  forall (s : string) (rounds : nat) (salt : Salt),
    bcrypt_compare s (bcrypt_hash s rounds salt) = true.

(** C7: when no record has the email, [createUser] resolves to a new record,
    added to the store, whose password is the hash of the plaintext (which
    verifies against it) and whose key sequence is empty; [validateUser] with
    the same pair then resolves to that record; and the record and the store
    depend on the plaintext through its hash alone. *)
Theorem createUser_then_validateUser (salt : Salt) (email password : string)
        (s : Store) :
  (forall u, In u (rows s) -> User.email u <> email) ->
  exists user s',
    UserService.createUser salt email password s = (Ok user, s') /\
    rows s' = rows s ++ [user] /\
    User.email user = email /\
    User.password user = Some (bcrypt_hash password 10 salt) /\
    bcrypt_compare password (bcrypt_hash password 10 salt) = true /\
    User.biometricKeys user = Some [] /\
    AuthService.validateUser email password s' = (Ok (Some user), s') /\
    (forall salt' password',
        bcrypt_hash password' 10 salt' = bcrypt_hash password 10 salt ->
        UserService.createUser salt' email password' s = (Ok user, s')).
Proof.
  intros Hfresh.
  assert (F : find (Prisma.has_email email) (rows s) = None).
  { apply find_absent. intros u Hu. unfold Prisma.has_email.
    apply String.eqb_neq. exact (Hfresh u Hu). }
  do 2 eexists. rewrite createUser_run, F. unfold Prisma.create.
  rewrite (existsb_has_email _ _ F).
  split; [reflexivity|]. simpl. repeat split.
  - apply compare_hash.
  - unfold AuthService.validateUser, UserService.findByEmail, bind,
      Prisma.findUnique_email. simpl.
    rewrite (find_after _ _ _ F). simpl.
    unfold Prisma.has_email at 1. simpl. rewrite String.eqb_refl.
    unfold bcrypt_compare_async, resolve. simpl.
    rewrite compare_hash. reflexivity.
  - intros salt' password' E. rewrite createUser_run, F.
    unfold Prisma.create. rewrite (existsb_has_email _ _ F), E. reflexivity.
Qed.

(** C8: after [addBiometricKey userId key] has resolved,
    [biometricKeyExists userId key] resolves to true; [biometricKeyExists]
    resolves to false for a key that verifies against none of the hashes of
    the record with that id; and its answer is a function of that record
    alone. *)
Theorem addBiometricKey_then_biometricKeyExists (userId : Z)
        (biometricKey : string) :
  (forall salt s updated s',
      UserService.addBiometricKey salt userId biometricKey s
      = (Ok updated, s') ->
      UserService.biometricKeyExists userId biometricKey s' = (Ok true, s')) /\
  (forall s u,
      Prisma.findUnique_id userId s = (Ok (Some u), s) ->
      (forall h, In h (storedKeys u) ->
                 bcrypt_compare biometricKey h = false) ->
      UserService.biometricKeyExists userId biometricKey s = (Ok false, s)) /\
  (forall s1 s2,
      fst (Prisma.findUnique_id userId s1)
      = fst (Prisma.findUnique_id userId s2) ->
      fst (UserService.biometricKeyExists userId biometricKey s1)
      = fst (UserService.biometricKeyExists userId biometricKey s2)).
Proof.
  repeat split.
  - intros salt s updated s' E. rewrite addBiometricKey_run in E.
    destruct (find (verifies biometricKey) (rows s)); [discriminate|].
    unfold Prisma.update_push in E.
    destruct (find (Prisma.has_id userId) (rows s)) as [target|] eqn:F.
    + destruct (push_where_target userId (bcrypt_hash biometricKey 10 salt)
                  (clock s) (rows s) target F) as (l' & P & F').
      rewrite P in E. injection E as <- <-.
      rewrite biometricKeyExists_run. simpl. rewrite F'.
      unfold verifies. rewrite pushed_storedKeys, existsb_app. simpl.
      rewrite compare_hash, orb_true_r. reflexivity.
    + rewrite (push_where_none _ _ _ _ F) in E. discriminate.
  - intros s u F Hno. rewrite biometricKeyExists_run.
    unfold Prisma.findUnique_id in F. injection F as ->.
    f_equal. f_equal. apply verifies_false. exact Hno.
  - intros s1 s2 E. rewrite !biometricKeyExists_run. simpl in *.
    injection E as ->. reflexivity.
Qed.

End Registration.

(** ** auth.service.ts *)

Section Authentication.
Context `{Bcrypt} `{JwtService}.

Lemma validateUser_store (email password : string) (s : Store) :
  snd (AuthService.validateUser email password s) = s.
Proof.
  unfold AuthService.validateUser, UserService.findByEmail, bind,
    Prisma.findUnique_email.
  destruct (find _ _) as [u|]; [|reflexivity].
  unfold bcrypt_compare_async.
  destruct (User.password u) as [h|]; [|reflexivity].
  unfold resolve. destruct (bcrypt_compare password h); reflexivity.
Qed.

(** C4: when the record stored under the email, if any, carries a password
    hash, [validateUser] resolves and never rejects; it resolves to the
    record exactly when the plaintext verifies against that hash, and to
    absent both when no record has the email and when the plaintext does not
    verify, the two outcomes being the same. *)
Theorem validateUser_user_or_absent (email password : string) (s : Store) :
  (forall u, UserService.findByEmail email s = (Ok (Some u), s) ->
             User.password u <> None) ->
  exists answer,
    AuthService.validateUser email password s = (Ok answer, s) /\
    (forall u,
        answer = Some u <->
        UserService.findByEmail email s = (Ok (Some u), s) /\
        exists h, User.password u = Some h /\
                  bcrypt_compare password h = true) /\
    ((forall u, In u (rows s) -> User.email u <> email) -> answer = None) /\
    (forall u h,
        UserService.findByEmail email s = (Ok (Some u), s) ->
        User.password u = Some h ->
        bcrypt_compare password h = false ->
        answer = None).
Proof.
  unfold AuthService.validateUser, UserService.findByEmail, bind,
    Prisma.findUnique_email.
  intros Hpw.
  destruct (find (Prisma.has_email email) (rows s)) as [u|] eqn:F.
  - destruct (User.password u) as [h|] eqn:P.
    + unfold bcrypt_compare_async, resolve.
      destruct (bcrypt_compare password h) eqn:C.
      * exists (Some u). split; [reflexivity|]. split; [|split].
        -- intros u'. split.
           ++ intros E. injection E as <-.
              split; [reflexivity|]. exists h. auto.
           ++ intros (E & _). congruence.
        -- intros Hno. apply find_some in F. destruct F as [Hin He].
           apply String.eqb_eq in He. destruct (Hno u Hin He).
        -- intros u' h' E P' C'. congruence.
      * exists None. split; [reflexivity|]. split; [|split].
        -- intros u'. split; [discriminate|].
           intros (E & h' & P' & C'). congruence.
        -- reflexivity.
        -- reflexivity.
    + destruct (Hpw u eq_refl P).
  - exists None. split; [reflexivity|]. split; [|split].
    + intros u'. split; [discriminate|]. intros (E & _). discriminate.
    + reflexivity.
    + reflexivity.
Qed.

(** C5: [biometricLogin] is rejected with the bad request exception
    "Invalid biometric key" when [findUserByBiometricKey] resolves to absent;
    otherwise it resolves to the token signed over the payload made of the
    matched record's email and, as subject, its id. *)
Theorem biometricLogin_token_or_rejection (biometricKey : string) (s : Store) :
  exists found,
    UserService.findUserByBiometricKey biometricKey s = (Ok found, s) /\
    (found = None ->
     AuthService.biometricLogin biometricKey s
     = (Err (BadRequestException "Invalid biometric key"), s)) /\
    (forall u,
        found = Some u ->
        AuthService.biometricLogin biometricKey s
        = (Ok (mkAuthResponse
                 (jwt_sign (mkJwtPayload (User.email u) (User.id u)))), s)).
Proof.
  exists (find (verifies biometricKey) (rows s)).
  split; [apply findUserByBiometricKey_resolves|].
  unfold AuthService.biometricLogin, bind.
  rewrite findUserByBiometricKey_resolves.
  split.
  - intros ->. reflexivity.
  - intros u ->. reflexivity.
Qed.

End Authentication.

(** ** user.resolver.ts *)

Section Resolver.
Context `{Bcrypt} `{JwtService}.

Lemma includes_In (l : list string) (x : string) :
  includes l x = true <-> In x l.
Proof.
  unfold includes. rewrite existsb_exists. split.
  - intros (y & Hy & E). apply String.eqb_eq in E. subst y. exact Hy.
  - intros Hx. exists x. split; [exact Hx|apply String.eqb_refl].
Qed.

Lemma registerWithBiometric_run (salt : Salt)
      (email password biometricKey : string) (s : Store) :
  UserResolver.registerWithBiometric salt email password biometricKey s
  = match AuthService.validateUser email password s with
    | (Ok (Some u), s1) =>
        if includes (storedKeys u) biometricKey
        then (Err setupFailed, s1)
        else
          match UserService.addBiometricKey salt (User.id u) biometricKey s1
          with
          | (Ok _, s2) =>
              (Ok ("Biometric key added successfully for "
                     ++ User.email u)%string, s2)
          | (Err _, s2) => (Err setupFailed, s2)
          end
    | (_, s1) => (Err setupFailed, s1)
    end.
Proof.
  unfold UserResolver.registerWithBiometric, try_catch, bind.
  destruct (AuthService.validateUser email password s) as [[[u|]|e] s1];
    try reflexivity.
  unfold storedKeys.
  destruct (includes _ _); [reflexivity|].
  destruct (UserService.addBiometricKey _ _ _ _) as [[u'|e] s2]; reflexivity.
Qed.

(** C9: [registerWithBiometric] fails unless [validateUser] resolves to a
    user; it then fails when the plaintext key is, as a string, an element of
    that user's [biometricKeys]; otherwise its outcome is that of
    [addBiometricKey] for the user's id, so a stored hash that verifies
    against the key still fails it; a call that succeeds has passed both
    tests. *)
Theorem registerWithBiometric_two_checks (salt : Salt)
        (email password biometricKey : string) (s : Store) :
  ((forall u, fst (AuthService.validateUser email password s) <> Ok (Some u)) ->
   UserResolver.registerWithBiometric salt email password biometricKey s
   = (Err setupFailed, s)) /\
  (forall u,
      AuthService.validateUser email password s = (Ok (Some u), s) ->
      In biometricKey (storedKeys u) ->
      UserResolver.registerWithBiometric salt email password biometricKey s
      = (Err setupFailed, s)) /\
  (forall u,
      AuthService.validateUser email password s = (Ok (Some u), s) ->
      ~ In biometricKey (storedKeys u) ->
      UserResolver.registerWithBiometric salt email password biometricKey s
      = match UserService.addBiometricKey salt (User.id u) biometricKey s with
        | (Ok _, s') =>
            (Ok ("Biometric key added successfully for "
                   ++ User.email u)%string, s')
        | (Err _, s') => (Err setupFailed, s')
        end) /\
  (forall u v h,
      AuthService.validateUser email password s = (Ok (Some u), s) ->
      ~ In biometricKey (storedKeys u) ->
      In v (rows s) -> In h (storedKeys v) ->
      bcrypt_compare biometricKey h = true ->
      UserResolver.registerWithBiometric salt email password biometricKey s
      = (Err setupFailed, s)) /\
  (forall message s',
      UserResolver.registerWithBiometric salt email password biometricKey s
      = (Ok message, s') ->
      exists u,
        AuthService.validateUser email password s = (Ok (Some u), s) /\
        ~ In biometricKey (storedKeys u) /\
        (forall v h, In v (rows s) -> In h (storedKeys v) ->
                     bcrypt_compare biometricKey h = false) /\
        (exists updated,
            UserService.addBiometricKey salt (User.id u) biometricKey s
            = (Ok updated, s'))).
Proof.
  rewrite registerWithBiometric_run.
  pose proof (validateUser_store email password s) as St.
  destruct (AuthService.validateUser email password s) as [r s1].
  simpl in St. subst s1.
  split; [|split; [|split; [|split]]].
  - intros Hno. destruct r as [[u|]|e]; try reflexivity.
    destruct (Hno u eq_refl).
  - intros u E Hin. injection E as ->.
    apply includes_In in Hin. rewrite Hin. reflexivity.
  - intros u E Hout. injection E as ->.
    destruct (includes (storedKeys u) biometricKey) eqn:I.
    + apply includes_In in I. destruct (Hout I).
    + reflexivity.
  - intros u v h E Hout Hv Hh C. injection E as ->.
    destruct (includes (storedKeys u) biometricKey) eqn:I; [reflexivity|].
    rewrite (addBiometricKey_rejected salt (User.id u) biometricKey s v h
               Hv Hh C).
    reflexivity.
  - intros message s' E.
    destruct r as [[u|]|e]; try discriminate.
    exists u. split; [reflexivity|].
    destruct (includes (storedKeys u) biometricKey) eqn:I; [discriminate|].
    split.
    { intros Hin. apply includes_In in Hin. congruence. }
    rewrite addBiometricKey_run in E |- *.
    destruct (find (verifies biometricKey) (rows s)) eqn:F; [discriminate|].
    split.
    { intros v h Hv Hh.
      exact (proj1 (verifies_false _ _) (find_none _ _ F v Hv) h Hh). }
    destruct (Prisma.update_push _ _ s) as [[updated|e] s2];
      [|discriminate].
    injection E as _ <-. exists updated. reflexivity.
Qed.

End Resolver.

(** ** What a call can do to the store *)

Section Writes.
Context `{Bcrypt} `{JwtService}.

Lemma createUser_wrote (salt : Salt) (email password : string) (s : Store) :
  wrote s (snd (UserService.createUser salt email password s)).
Proof.
  rewrite createUser_run.
  destruct (find _ _); [left; reflexivity|].
  unfold Prisma.create. destruct (existsb _ _); [left; reflexivity|].
  right. left. eexists. split; [|split; [|reflexivity]].
  - reflexivity.
  - discriminate.
Qed.

Lemma addBiometricKey_wrote (salt : Salt) (userId : Z) (biometricKey : string)
      (s : Store) :
  wrote s (snd (UserService.addBiometricKey salt userId biometricKey s)).
Proof.
  rewrite addBiometricKey_run.
  destruct (find (verifies biometricKey) (rows s)) eqn:F; [left; reflexivity|].
  unfold Prisma.update_push.
  destruct (Prisma.push_where _ _ _ _) as [[updated l']|] eqn:P;
    [|left; reflexivity].
  apply push_where_some in P.
  destruct P as (before & target & rest & E & _ & _ & -> & ->).
  right. right. exists salt, biometricKey, before, target, rest. auto.
Qed.

Lemma after_wrote (s : Store) (c : call) : wrote s (after s c).
Proof.
  destruct c as [salt email password|salt email password biometricKey
                 |email password|biometricKey|salt email password
                 |salt userId biometricKey]; simpl.
  - unfold UserResolver.register, try_catch, bind.
    pose proof (createUser_wrote salt email password s) as W.
    destruct (UserService.createUser salt email password s) as [[u|e] s1];
      [exact W|].
    destruct e; exact W.
  - rewrite registerWithBiometric_run.
    pose proof (validateUser_store email password s) as St.
    destruct (AuthService.validateUser email password s) as [r s1].
    simpl in St. subst s1.
    destruct r as [[u|]|e]; try (left; reflexivity).
    destruct (includes _ _); [left; reflexivity|].
    pose proof (addBiometricKey_wrote salt (User.id u) biometricKey s) as W.
    destruct (UserService.addBiometricKey _ _ _ _) as [[u'|e] s2]; exact W.
  - unfold UserResolver.login, try_catch, bind.
    pose proof (validateUser_store email password s) as St.
    destruct (AuthService.validateUser email password s) as [r s1].
    simpl in St. subst s1.
    destruct r as [[u|]|e]; left; reflexivity.
  - unfold UserResolver.biometricLogin, AuthService.biometricLogin,
      try_catch, bind.
    rewrite findUserByBiometricKey_resolves.
    destruct (find _ _); left; reflexivity.
  - apply createUser_wrote.
  - apply addBiometricKey_wrote.
Qed.

Lemma filter_length_split {A} (f : A -> bool) (before rest : list A) (x : A) :
  length (filter f (before ++ x :: rest))
  = length (filter f before) + (if f x then 1 else 0)
    + length (filter f rest).
Proof.
  rewrite filter_app, length_app. simpl.
  destruct (f x); simpl; lia.
Qed.

Lemma filter_none {A} (f : A -> bool) (l : list A) :
  (forall y, In y l -> f y = false) -> filter f l = [].
Proof.
  induction l as [|a l IH]; simpl; intros E; [reflexivity|].
  rewrite (E a) by (left; reflexivity). apply IH.
  intros y Hy. apply E. right. exact Hy.
Qed.

Lemma verifies_pushed (plaintext key : string) (now : nat) (u : User.t) :
  verifies plaintext (Prisma.pushed key now u)
  = verifies plaintext u || bcrypt_compare plaintext key.
Proof.
  unfold verifies. rewrite pushed_storedKeys, existsb_app. simpl.
  rewrite orb_false_r. reflexivity.
Qed.

(** A stored hash that verifies is still there, verifying, after a call. *)
Lemma wrote_keeps_match (plaintext : string) (s s' : Store) :
  wrote s s' ->
  (exists u, In u (rows s) /\ verifies plaintext u = true) ->
  exists u, In u (rows s') /\ verifies plaintext u = true.
Proof.
  intros [->|[(user & _ & _ & E)|(salt & key & before & target & rest & _ & E & E')]]
         (u & Hin & V).
  - eauto.
  - exists u. rewrite E. split; [apply in_or_app; left; exact Hin|exact V].
  - rewrite E in Hin. rewrite E'.
    apply in_app_or in Hin. destruct Hin as [Hin|[<-|Hin]].
    + exists u. split; [apply in_or_app; left; exact Hin|exact V].
    + eexists. split; [apply in_or_app; right; left; reflexivity|].
      rewrite verifies_pushed, V. reflexivity.
    + exists u. split; [apply in_or_app; right; right; exact Hin|exact V].
Qed.

Lemma run_keeps_match (plaintext : string) (calls : list call) (s : Store) :
  (exists u, In u (rows s) /\ verifies plaintext u = true) ->
  exists u, In u (rows (run calls s)) /\ verifies plaintext u = true.
Proof.
  revert s. induction calls as [|c calls IH]; intros s M; simpl.
  - exact M.
  - apply IH. exact (wrote_keeps_match plaintext s _ (after_wrote s c) M).
Qed.

(** Every record written through the services carries a password hash. *)
Lemma wrote_keeps_passwords (s s' : Store) :
  wrote s s' ->
  (forall u, In u (rows s) -> User.password u <> None) ->
  forall u, In u (rows s') -> User.password u <> None.
Proof.
  intros [->|[(user & _ & P & E)|(salt & key & before & target & rest & _ & E & E')]]
         Inv u Hin.
  - exact (Inv u Hin).
  - rewrite E in Hin. apply in_app_or in Hin.
    destruct Hin as [Hin|[<-|[]]]; [exact (Inv u Hin)|exact P].
  - rewrite E' in Hin. rewrite E in Inv.
    apply in_app_or in Hin. destruct Hin as [Hin|[<-|Hin]].
    + apply Inv, in_or_app. left. exact Hin.
    + simpl. apply Inv, in_or_app. right. left. reflexivity.
    + apply Inv, in_or_app. right. right. exact Hin.
Qed.

Lemma run_keeps_passwords (calls : list call) (s : Store) :
  (forall u, In u (rows s) -> User.password u <> None) ->
  forall u, In u (rows (run calls s)) -> User.password u <> None.
Proof.
  revert s. induction calls as [|c calls IH]; intros s Inv; simpl.
  - exact Inv.
  - apply IH. exact (wrote_keeps_passwords s _ (after_wrote s c) Inv).
Qed.

Hypothesis compare_hash :
  forall (s : string) (rounds : nat) (salt : Salt),
    bcrypt_compare s (bcrypt_hash s rounds salt) = true.

(** Whatever verifies against a hash of [s0] verifies against the same
    hashes as [s0]. *)
Hypothesis compare_same :
  forall (s s0 : string) (rounds : nat) (salt : Salt) (h : string),
    bcrypt_compare s (bcrypt_hash s0 rounds salt) = true ->
    bcrypt_compare s h = true ->
    bcrypt_compare s0 h = true.

Lemma verifies_same (s s0 : string) (rounds : nat) (salt : Salt) (u : User.t) :
  bcrypt_compare s (bcrypt_hash s0 rounds salt) = true ->
  verifies s u = true -> verifies s0 u = true.
Proof.
  intros C V. apply verifies_true in V. destruct V as (h & Hh & Ch).
  apply verifies_true. exists h. split; [exact Hh|].
  exact (compare_same s s0 rounds salt h C Ch).
Qed.

Lemma wrote_at_most_one (s s' : Store) :
  wrote s s' ->
  (forall plaintext, length (matchingUsers plaintext s) <= 1) ->
  forall plaintext, length (matchingUsers plaintext s') <= 1.
Proof.
  intros [->|[(user & K & _ & E)|(salt & key & before & target & rest & F & E & E')]]
         Inv plaintext.
  - apply Inv.
  - specialize (Inv plaintext). unfold matchingUsers in *.
    rewrite E, filter_app, length_app. simpl.
    unfold verifies at 2. rewrite K. simpl. lia.
  - specialize (Inv plaintext). unfold matchingUsers in *.
    rewrite E' , filter_length_split. rewrite E, filter_length_split in Inv.
    rewrite verifies_pushed.
    destruct (bcrypt_compare plaintext (bcrypt_hash key 10 salt)) eqn:C.
    + assert (N : forall y, In y (rows s) -> verifies plaintext y = false).
      { intros y Hy. destruct (verifies plaintext y) eqn:V; [|reflexivity].
        pose proof (verifies_same _ _ _ _ y C V) as V0.
        rewrite (find_none _ _ F y Hy) in V0. discriminate. }
      rewrite !filter_none.
      * simpl. destruct (_ || _); lia.
      * intros y Hy. apply N. rewrite E. apply in_or_app. right. right.
        exact Hy.
      * intros y Hy. apply N. rewrite E. apply in_or_app. left. exact Hy.
    + rewrite orb_false_r. exact Inv.
Qed.

Lemma run_at_most_one (calls : list call) (s : Store) :
  (forall plaintext, length (matchingUsers plaintext s) <= 1) ->
  forall plaintext, length (matchingUsers plaintext (run calls s)) <= 1.
Proof.
  revert s. induction calls as [|c calls IH]; intros s Inv; simpl.
  - exact Inv.
  - apply IH. exact (wrote_at_most_one s _ (after_wrote s c) Inv).
Qed.

(** C1, as amended: in every store reached from the empty one by calls that
    do not overlap, each one ending before the next begins, a plaintext key
    verifies against the hashes of at most one record; and once
    [addBiometricKey] has resolved for a key, [addBiometricKey] with the same
    plaintext, for any user and after any further such calls, is rejected
    with the conflict exception and writes nothing. *)
Theorem one_user_per_biometric_key :
  (forall calls plaintext,
      length (matchingUsers plaintext (run calls emptyStore)) <= 1) /\
  (forall salt userId biometricKey s updated s' calls salt' userId',
      UserService.addBiometricKey salt userId biometricKey s
      = (Ok updated, s') ->
      UserService.addBiometricKey salt' userId' biometricKey (run calls s')
      = (Err (ConflictException
                "Biometric key already exists for another user"),
         run calls s')).
Proof.
  split.
  - intros calls. apply run_at_most_one. intros plaintext. simpl. lia.
  - intros salt userId biometricKey s updated s' calls salt' userId' E.
    assert (M : exists u, In u (rows s') /\ verifies biometricKey u = true).
    { rewrite addBiometricKey_run in E.
      destruct (find (verifies biometricKey) (rows s)); [discriminate|].
      unfold Prisma.update_push in E.
      destruct (Prisma.push_where _ _ _ _) as [[u0 l0]|] eqn:P;
        [|discriminate].
      injection E as <- <-. apply push_where_some in P.
      destruct P as (before & target & rest & _ & _ & _ & -> & ->).
      eexists. split; [simpl; apply in_or_app; right; left; reflexivity|].
      rewrite verifies_pushed, compare_hash, orb_true_r. reflexivity. }
    destruct (run_keeps_match biometricKey calls s' M) as (u & Hin & V).
    apply verifies_true in V. destruct V as (h & Hh & C).
    exact (addBiometricKey_rejected salt' userId' biometricKey _ u h Hin Hh C).
Qed.

End Writes.

(** * The services run on the small instance *)

Lemma toy_compare_hash (s : string) (rounds : nat) (salt : ascii) :
  Toy.compare s (Toy.hash s rounds salt) = true.
Proof. simpl. apply String.eqb_refl. Qed.

Lemma toy_compare_same (s s0 : string) (rounds : nat) (salt : ascii)
      (h : string) :
  Toy.compare s (Toy.hash s0 rounds salt) = true ->
  Toy.compare s h = true ->
  Toy.compare s0 h = true.
Proof.
  simpl. intros E. apply String.eqb_eq in E. subst s0. trivial.
Qed.

(** The first registrations of the end-to-end scenario build [Toy.store2]. *)
Example history_registered :
  @run Toy.bcrypt Toy.jwt Toy.history emptyStore = Toy.store2.
Proof. reflexivity. Qed.

(** On the small instance: the scenario followed by a second registration of
    [bio1], for bob, still has one record matching [bio1]. *)
Lemma one_user_per_biometric_key_witness :
  length (@matchingUsers Toy.bcrypt "bio1"
            (@run Toy.bcrypt Toy.jwt
               (Toy.history
                  ++ [@RegisterWithBiometric Toy.bcrypt
                        "%"%char "b@x.com" "pw2" "bio1"])
               emptyStore)) <= 1 /\
  @UserService.addBiometricKey Toy.bcrypt "%"%char 2 "bio1" Toy.store2
  = (Err (ConflictException "Biometric key already exists for another user"),
     Toy.store2).
Proof.
  destruct (@one_user_per_biometric_key Toy.bcrypt Toy.jwt
              toy_compare_hash toy_compare_same) as [One Again].
  split.
  - apply One.
  - apply (Again "#"%char 1%Z "bio1" Toy.registered Toy.alice Toy.store2
                 [] "%"%char 2%Z).
    reflexivity.
Defined.

(** On the small instance: [bio1] is alice's and is refused for bob; [bio2]
    is new and is appended to bob's keys. *)
Lemma addBiometricKey_conflict_or_append_witness :
  @UserService.addBiometricKey Toy.bcrypt "%"%char 2 "bio1" Toy.store2
  = (Err (ConflictException "Biometric key already exists for another user"),
     Toy.store2) /\
  exists updated before rest,
    @UserService.addBiometricKey Toy.bcrypt "%"%char 2 "bio2" Toy.store2
    = (Ok updated, mkStore (before ++ updated :: rest) 3 4) /\
    User.biometricKeys updated = Some ["%bio2"].
Proof.
  split.
  - destruct (@addBiometricKey_conflict_or_append Toy.bcrypt
                "%"%char 2%Z "bio1" Toy.store2) as (_ & Rejected & _).
    apply (Rejected Toy.alice "#bio1").
    + simpl. left. reflexivity.
    + simpl. left. reflexivity.
    + reflexivity.
  - destruct (@addBiometricKey_conflict_or_append Toy.bcrypt
                "%"%char 2%Z "bio2" Toy.store2) as (_ & _ & Appended).
    destruct (Appended) with (target := Toy.bob)
      as (updated & before & rest & E & _ & _ & K & _).
    + intros u h [<-|[<-|[]]]; simpl.
      * intros [<-|[]]. reflexivity.
      * intros [].
    + reflexivity.
    + exists updated, before, rest. split; [exact E|exact K].
Defined.

(** On the small instance: [bio1] finds alice, the first record. *)
Lemma findUserByBiometricKey_first_match_witness :
  @UserService.findUserByBiometricKey Toy.bcrypt "bio1" Toy.store2
  = (Ok (Some Toy.alice), Toy.store2).
Proof.
  destruct (@findUserByBiometricKey_first_match Toy.bcrypt "bio1" Toy.store2)
    as (found & E & _ & First).
  rewrite E. f_equal. f_equal. apply First.
  exists [], [Toy.bob]. split; [reflexivity|]. split.
  - exists "#bio1". split; [simpl; left; reflexivity|reflexivity].
  - intros u h [].
Defined.

(** On the small instance: a wrong password and an unknown email get the
    same answer. *)
Lemma validateUser_user_or_absent_witness :
  @AuthService.validateUser Toy.bcrypt "a@x.com" "wrong" Toy.store4
  = (Ok None, Toy.store4) /\
  @AuthService.validateUser Toy.bcrypt "nobody@x.com" "pw1" Toy.store4
  = (Ok None, Toy.store4).
Proof.
  split.
  - destruct (@validateUser_user_or_absent Toy.bcrypt "a@x.com" "wrong"
                Toy.store4) as (answer & E & _ & _ & Wrong).
    + intros u F. injection F as <-. discriminate.
    + rewrite E. f_equal. f_equal.
      apply (Wrong Toy.alice "$pw1"); reflexivity.
  - destruct (@validateUser_user_or_absent Toy.bcrypt "nobody@x.com" "pw1"
                Toy.store4) as (answer & E & _ & Unknown & _).
    + intros u F. discriminate.
    + rewrite E. f_equal. f_equal. apply Unknown.
      intros u [<-|[<-|[<-|[<-|[]]]]]; discriminate.
Defined.

(** On the small instance: [bio1] logs alice in, an unknown key is
    rejected. *)
Lemma biometricLogin_token_or_rejection_witness :
  @AuthService.biometricLogin Toy.bcrypt Toy.jwt "bio1" Toy.store2
  = (Ok (mkAuthResponse (Toy.sign (mkJwtPayload "a@x.com" 1))), Toy.store2) /\
  @AuthService.biometricLogin Toy.bcrypt Toy.jwt "bio-unknown" Toy.store2
  = (Err (BadRequestException "Invalid biometric key"), Toy.store2).
Proof.
  split.
  - destruct (@biometricLogin_token_or_rejection Toy.bcrypt Toy.jwt
                "bio1" Toy.store2) as (found & E & _ & Token).
    apply (Token Toy.alice).
    vm_compute in E. injection E as <-. reflexivity.
  - destruct (@biometricLogin_token_or_rejection Toy.bcrypt Toy.jwt
                "bio-unknown" Toy.store2) as (found & E & Rejected & _).
    apply Rejected.
    vm_compute in E. injection E as <-. reflexivity.
Defined.

(** On the small instance: alice's email cannot be registered again. *)
Lemma createUser_existing_email_witness :
  In Toy.alice (rows Toy.store2) /\
  User.email Toy.alice = "a@x.com" /\
  @UserService.createUser Toy.bcrypt "!"%char "a@x.com" "pw9" Toy.store2
  = (Err (ConflictException "User already exists"), Toy.store2).
Proof.
  split; [simpl; left; reflexivity|]. split; [reflexivity|].
  apply (@createUser_existing_email Toy.bcrypt
           "!"%char "a@x.com" "pw9" Toy.store2 Toy.alice).
  - simpl. left. reflexivity.
  - reflexivity.
Defined.

(** On the small instance: carol registers and is then validated. *)
Lemma createUser_then_validateUser_witness :
  exists user s',
    @UserService.createUser Toy.bcrypt "$"%char "c@x.com" "pw3" Toy.store2
    = (Ok user, s') /\
    User.password user = Some "$pw3" /\
    User.biometricKeys user = Some [] /\
    @AuthService.validateUser Toy.bcrypt "c@x.com" "pw3" s'
    = (Ok (Some user), s').
Proof.
  destruct (@createUser_then_validateUser Toy.bcrypt toy_compare_hash
              "$"%char "c@x.com" "pw3" Toy.store2)
    as (user & s' & E & _ & _ & P & _ & K & V & _).
  - intros u [<-|[<-|[]]]; discriminate.
  - exists user, s'. repeat split; assumption.
Defined.

(** On the small instance: alice has [bio1] once it is added, bob has not,
    although alice's record verifies it. *)
Lemma addBiometricKey_then_biometricKeyExists_witness :
  @UserService.biometricKeyExists Toy.bcrypt 1 "bio1" Toy.store2
  = (Ok true, Toy.store2) /\
  @UserService.biometricKeyExists Toy.bcrypt 2 "bio1" Toy.store2
  = (Ok false, Toy.store2).
Proof.
  split.
  - destruct (@addBiometricKey_then_biometricKeyExists Toy.bcrypt
                toy_compare_hash 1%Z "bio1") as (Added & _ & _).
    apply (Added "#"%char Toy.registered Toy.alice Toy.store2).
    reflexivity.
  - destruct (@addBiometricKey_then_biometricKeyExists Toy.bcrypt
                toy_compare_hash 2%Z "bio1") as (_ & Other & _).
    apply (Other Toy.store2 Toy.bob).
    + reflexivity.
    + intros h [].
Defined.

(** On the small instance: alice's second registration of [bio1] is stopped
    by the scan, erin's registration of [bio5] by the membership test. *)
Lemma registerWithBiometric_two_checks_witness :
  @UserResolver.registerWithBiometric Toy.bcrypt
    "%"%char "a@x.com" "pw1" "bio1" Toy.store2
  = (Err setupFailed, Toy.store2) /\
  @UserResolver.registerWithBiometric Toy.bcrypt
    "%"%char "e@x.com" "pw5" "bio5" Toy.storeErin
  = (Err setupFailed, Toy.storeErin).
Proof.
  split.
  - destruct (@registerWithBiometric_two_checks Toy.bcrypt
                "%"%char "a@x.com" "pw1" "bio1" Toy.store2)
      as (_ & _ & _ & Scan & _).
    apply (Scan Toy.alice Toy.alice "#bio1").
    + reflexivity.
    + simpl. intros [E|[]]. discriminate.
    + simpl. left. reflexivity.
    + simpl. left. reflexivity.
    + reflexivity.
  - destruct (@registerWithBiometric_two_checks Toy.bcrypt
                "%"%char "e@x.com" "pw5" "bio5" Toy.storeErin)
      as (_ & Literal & _).
    apply (Literal Toy.erin).
    + reflexivity.
    + simpl. left. reflexivity.
Defined.

(** On the small instance: no record has id 9, and carol's record has no
    [biometricKeys]. *)
Lemma absent_biometricKeys_is_empty_witness :
  @UserService.biometricKeyExists Toy.bcrypt 9 "bio1" Toy.store3
  = (Ok false, Toy.store3) /\
  @UserService.biometricKeyExists Toy.bcrypt 3 "bio1" Toy.store3
  = (Ok false, Toy.store3).
Proof.
  split.
  - destruct (@absent_biometricKeys_is_empty Toy.bcrypt 9%Z "bio1" Toy.store3)
      as (Unknown & _).
    apply Unknown. intros u [<-|[<-|[<-|[]]]]; discriminate.
  - destruct (@absent_biometricKeys_is_empty Toy.bcrypt 3%Z "bio1" Toy.store3)
      as (_ & Absent & _).
    apply (Absent Toy.carol); reflexivity.
Defined.

(** The two duplicate tests of [registerWithBiometric] disagree both ways:
    a key whose hash is stored passes the membership test, and only the scan
    of [addBiometricKey] stops it; a stored string equal to the key stops the
    call although nothing verifies against the key. *)
Example duplicate_checks_disagree :
  includes (storedKeys Toy.alice) "bio1" = false /\
  @verifies Toy.bcrypt "bio1" Toy.alice = true /\
  includes (storedKeys Toy.erin) "bio5" = true /\
  @verifies Toy.bcrypt "bio5" Toy.erin = false.
Proof. repeat split. Qed.

(** A record without a password hash makes [validateUser] reject: bcryptjs
    gets [undefined] for the hash. *)
Example validateUser_without_password :
  @AuthService.validateUser Toy.bcrypt "d@x.com" "pw" Toy.store4
  = (Err (Error "Illegal arguments: string, undefined"), Toy.store4).
Proof. reflexivity. Qed.

(** [update] has no record to push to when the id is unknown. *)
Example addBiometricKey_unknown_user :
  @UserService.addBiometricKey Toy.bcrypt "%"%char 7 "bio2" Toy.store3
  = (Err (PrismaClientKnownRequestError "P2025"), Toy.store3).
Proof. reflexivity. Qed.

(** The end-to-end scenario, from the store its registrations built. *)
Example scenario_logins :
  @UserResolver.login Toy.bcrypt Toy.jwt "a@x.com" "pw1" Toy.store2
  = (Ok (mkAuthResponse "jwt:a@x.com"), Toy.store2) /\
  @UserResolver.login Toy.bcrypt Toy.jwt "a@x.com" "wrong" Toy.store2
  = (Err (BadRequestException "Login failed"), Toy.store2) /\
  @UserResolver.biometricLogin Toy.bcrypt Toy.jwt "bio1" Toy.store2
  = (Ok (mkAuthResponse "jwt:a@x.com"), Toy.store2) /\
  @UserResolver.biometricLogin Toy.bcrypt Toy.jwt "bio-unknown" Toy.store2
  = (Err (BadRequestException "Login failed"), Toy.store2).
Proof. repeat split. Qed.

(** No record of a store reached from the empty one lacks its password
    hash. *)
Lemma reached_stores_have_passwords `{Bcrypt} `{JwtService}
      (calls : list call) (u : User.t) :
  In u (rows (run calls emptyStore)) -> User.password u <> None.
Proof.
  apply run_keeps_passwords. intros v [].
Qed.

(** * More of the services: outcomes, invariants and compositions *)

Section Outcomes.
Context `{Bcrypt} `{JwtService}.

Lemma createUser_fresh (salt : Salt) (email password : string) (s : Store) :
  find (Prisma.has_email email) (rows s) = None ->
  UserService.createUser salt email password s
  = (Ok (created s salt email password),
     mkStore (rows s ++ [created s salt email password])
             (nextId s + 1) (S (clock s))).
Proof.
  intros F. rewrite createUser_run, F. unfold Prisma.create.
  rewrite (existsb_has_email _ _ F). reflexivity.
Qed.

Lemma createUser_taken (salt : Salt) (email password : string) (s : Store)
      (u : User.t) :
  find (Prisma.has_email email) (rows s) = Some u ->
  UserService.createUser salt email password s
  = (Err (ConflictException "User already exists"), s).
Proof.
  intros F. rewrite createUser_run, F. reflexivity.
Qed.

Lemma addBiometricKey_resolved (salt : Salt) (userId : Z)
      (biometricKey : string) (s : Store) (updated : User.t) (s' : Store) :
  UserService.addBiometricKey salt userId biometricKey s = (Ok updated, s') ->
  exists before target rest,
    find (verifies biometricKey) (rows s) = None /\
    rows s = before ++ target :: rest /\
    (forall y, In y before -> User.id y <> userId) /\
    User.id target = userId /\
    updated = Prisma.pushed (bcrypt_hash biometricKey 10 salt) (clock s)
                            target /\
    s' = mkStore (before ++ updated :: rest) (nextId s) (S (clock s)).
Proof.
  rewrite addBiometricKey_run.
  destruct (find (verifies biometricKey) (rows s)) eqn:F; [discriminate|].
  unfold Prisma.update_push.
  destruct (Prisma.push_where _ _ _ _) as [[u0 l0]|] eqn:P; [|discriminate].
  intros E. injection E as -> <-.
  apply push_where_some in P.
  destruct P as (before & target & rest & E & Hb & Ht & -> & ->).
  exists before, target, rest. repeat split; trivial.
  - intros y Hy Hid. pose proof (Hb y Hy) as X.
    unfold Prisma.has_id in X. rewrite Hid, Z.eqb_refl in X. discriminate.
  - apply Z.eqb_eq. exact Ht.
Qed.

Lemma addBiometricKey_rejection_store (salt : Salt) (userId : Z)
      (biometricKey : string) (s : Store) (e : exception) (s' : Store) :
  UserService.addBiometricKey salt userId biometricKey s = (Err e, s') ->
  s' = s.
Proof.
  rewrite addBiometricKey_run.
  destruct (find (verifies biometricKey) (rows s)).
  - intros E. injection E as _ <-. reflexivity.
  - unfold Prisma.update_push.
    destruct (Prisma.push_where _ _ _ _) as [[u0 l0]|]; [discriminate|].
    intros E. injection E as _ <-. reflexivity.
Qed.

Lemma createUser_effect (salt : Salt) (email password : string) (s : Store) :
  effect s (snd (UserService.createUser salt email password s)).
Proof.
  destruct (find (Prisma.has_email email) (rows s)) as [u|] eqn:F.
  - rewrite (createUser_taken _ _ _ _ u F). left. reflexivity.
  - rewrite (createUser_fresh _ _ _ _ F). right. left.
    exists salt, email, password. split; [exact F|reflexivity].
Qed.

Lemma addBiometricKey_effect (salt : Salt) (userId : Z) (biometricKey : string)
      (s : Store) :
  effect s (snd (UserService.addBiometricKey salt userId biometricKey s)).
Proof.
  destruct (UserService.addBiometricKey salt userId biometricKey s)
    as [[updated|e] s'] eqn:E.
  - apply addBiometricKey_resolved in E.
    destruct E as (before & target & rest & F & R & Hb & Ht & -> & ->).
    right. right. exists salt, biometricKey, before, target, rest.
    repeat split; trivial. intros y Hy. rewrite Ht. exact (Hb y Hy).
  - apply addBiometricKey_rejection_store in E. left. exact E.
Qed.

Lemma login_store (email password : string) (s : Store) :
  snd (UserResolver.login email password s) = s.
Proof.
  unfold UserResolver.login, try_catch, bind.
  pose proof (validateUser_store email password s) as St.
  destruct (AuthService.validateUser email password s) as [r s1].
  simpl in St. subst s1.
  destruct r as [[u|]|e]; reflexivity.
Qed.

Lemma biometricLogin_store (biometricKey : string) (s : Store) :
  snd (UserResolver.biometricLogin biometricKey s) = s.
Proof.
  unfold UserResolver.biometricLogin, AuthService.biometricLogin,
    try_catch, bind.
  rewrite findUserByBiometricKey_resolves.
  destruct (find _ _); reflexivity.
Qed.

Lemma register_store (salt : Salt) (email password : string) (s : Store) :
  snd (UserResolver.register salt email password s)
  = snd (UserService.createUser salt email password s).
Proof.
  unfold UserResolver.register, try_catch, bind.
  destruct (UserService.createUser salt email password s) as [[u|e] s1];
    [reflexivity|].
  destruct e; reflexivity.
Qed.

Lemma after_effect (s : Store) (c : call) : effect s (after s c).
Proof.
  destruct c as [salt email password|salt email password biometricKey
                 |email password|biometricKey|salt email password
                 |salt userId biometricKey]; simpl.
  - rewrite register_store. apply createUser_effect.
  - rewrite registerWithBiometric_run.
    pose proof (validateUser_store email password s) as St.
    destruct (AuthService.validateUser email password s) as [r s1].
    simpl in St. subst s1.
    destruct r as [[u|]|e]; try (left; reflexivity).
    destruct (includes _ _); [left; reflexivity|].
    pose proof (addBiometricKey_effect salt (User.id u) biometricKey s) as W.
    destruct (UserService.addBiometricKey _ _ _ _) as [[u'|e] s2]; exact W.
  - rewrite login_store. left. reflexivity.
  - rewrite biometricLogin_store. left. reflexivity.
  - apply createUser_effect.
  - apply addBiometricKey_effect.
Qed.

(** An invariant of the effects holds in every store a run reaches. *)
Lemma run_invariant (P : Store -> Prop) :
  (forall s s', effect s s' -> P s -> P s') ->
  forall calls s, P s -> P (run calls s).
Proof.
  intros Step calls. induction calls as [|c calls IH]; intros s Ps; simpl.
  - exact Ps.
  - apply IH. exact (Step s _ (after_effect s c) Ps).
Qed.

End Outcomes.

Section ResolverOutcomes.
Context `{Bcrypt} `{JwtService}.

(** X1: [register] rejects with the conflict exception, leaving the store,
    when a record has the email; otherwise it resolves to the message naming
    the email, the store having the new record at its end; its catch-all
    "Registration failed" is never what a call ends with. *)
Theorem register_message_or_conflict (salt : Salt) (email password : string)
        (s : Store) :
  (forall u, In u (rows s) -> User.email u = email ->
             UserResolver.register salt email password s
             = (Err (ConflictException "User already exists"), s)) /\
  ((forall u, In u (rows s) -> User.email u <> email) ->
   UserResolver.register salt email password s
   = (Ok ("User " ++ email ++ " registered successfully")%string,
      mkStore (rows s ++ [created s salt email password])
              (nextId s + 1) (S (clock s)))) /\
  (forall e s',
      UserResolver.register salt email password s = (Err e, s') ->
      e = ConflictException "User already exists" /\ s' = s).
Proof.
  unfold UserResolver.register, try_catch, bind.
  destruct (find (Prisma.has_email email) (rows s)) as [u0|] eqn:F.
  - rewrite (createUser_taken _ _ _ _ u0 F). split; [|split].
    + reflexivity.
    + intros Hno. apply find_some in F. destruct F as [Hin He].
      apply String.eqb_eq in He. destruct (Hno u0 Hin He).
    + intros e s' E. injection E as <- <-. split; reflexivity.
  - rewrite (createUser_fresh _ _ _ _ F). split; [|split].
    + intros u Hin He. pose proof (find_none _ _ F u Hin) as X.
      unfold Prisma.has_email in X. rewrite He, String.eqb_refl in X.
      discriminate.
    + reflexivity.
    + intros e s' E. discriminate.
Qed.

(** X2: the resolver's [login] resolves, to the token over the email and id
    of the record stored under the email, exactly when that record's password
    hash verifies against the plaintext; whatever else happens it rejects
    with the one "Login failed"; it never writes. *)
Theorem login_token_or_login_failed (email password : string) (s : Store) :
  (forall u h,
      UserService.findByEmail email s = (Ok (Some u), s) ->
      User.password u = Some h ->
      bcrypt_compare password h = true ->
      UserResolver.login email password s = (Ok (tokenFor u), s)) /\
  (forall response s',
      UserResolver.login email password s = (Ok response, s') ->
      s' = s /\
      exists u h,
        UserService.findByEmail email s = (Ok (Some u), s) /\
        User.password u = Some h /\
        bcrypt_compare password h = true /\
        response = tokenFor u) /\
  (forall e s',
      UserResolver.login email password s = (Err e, s') ->
      e = BadRequestException "Login failed" /\ s' = s).
Proof.
  unfold UserResolver.login, AuthService.validateUser, AuthService.login,
    UserService.findByEmail, Prisma.findUnique_email, try_catch, bind,
    bcrypt_compare_async, resolve, throw, tokenFor.
  destruct (find (Prisma.has_email email) (rows s)) as [u0|].
  - destruct (User.password u0) as [h0|] eqn:P.
    + destruct (bcrypt_compare password h0) eqn:C.
      * split; [|split].
        -- intros u h E. injection E as <-. reflexivity.
        -- intros response s' E. injection E as <- <-.
           split; [reflexivity|]. exists u0, h0. auto.
        -- intros e s' E. discriminate.
      * split; [|split].
        -- intros u h E P' C'. injection E as <-. congruence.
        -- intros response s' E. discriminate.
        -- intros e s' E. injection E as <- <-. split; reflexivity.
    + split; [|split].
      * intros u h E P'. injection E as <-. congruence.
      * intros response s' E. discriminate.
      * intros e s' E. injection E as <- <-. split; reflexivity.
  - split; [|split].
    + intros u h E. discriminate.
    + intros response s' E. discriminate.
    + intros e s' E. injection E as <- <-. split; reflexivity.
Qed.

(** X3: the resolver's [biometricLogin] resolves, to the token of a record
    with a verifying hash, exactly when some stored hash verifies against the
    key; otherwise it rejects with "Login failed", not with the service's
    "Invalid biometric key"; it never writes. *)
Theorem biometricLogin_token_or_login_failed (biometricKey : string)
        (s : Store) :
  (forall response s',
      UserResolver.biometricLogin biometricKey s = (Ok response, s') ->
      s' = s /\
      exists u, In u (rows s) /\ verifies biometricKey u = true /\
                response = tokenFor u) /\
  (forall e s',
      UserResolver.biometricLogin biometricKey s = (Err e, s') ->
      e = BadRequestException "Login failed" /\ s' = s /\
      forall u h, In u (rows s) -> In h (storedKeys u) ->
                  bcrypt_compare biometricKey h = false) /\
  (forall u h,
      In u (rows s) -> In h (storedKeys u) ->
      bcrypt_compare biometricKey h = true ->
      exists v, UserResolver.biometricLogin biometricKey s
                = (Ok (tokenFor v), s)).
Proof.
  unfold UserResolver.biometricLogin, AuthService.biometricLogin,
    AuthService.login, try_catch, bind, resolve, throw, tokenFor.
  rewrite findUserByBiometricKey_resolves.
  destruct (find (verifies biometricKey) (rows s)) as [u0|] eqn:F.
  - split; [|split].
    + intros response s' E. injection E as <- <-.
      split; [reflexivity|]. apply find_some in F. destruct F as [Hin V].
      exists u0. auto.
    + intros e s' E. discriminate.
    + intros u h Hin Hh C. exists u0. reflexivity.
  - split; [|split].
    + intros response s' E. discriminate.
    + intros e s' E. injection E as <- <-.
      split; [reflexivity|]. split; [reflexivity|].
      intros u h Hin Hh.
      exact (proj1 (verifies_false _ _) (find_none _ _ F u Hin) h Hh).
    + intros u h Hin Hh C. pose proof (find_none _ _ F u Hin) as X.
      apply verifies_false with (h := h) in X; [|exact Hh]. congruence.
Qed.

(** X4: whatever makes [registerWithBiometric] fail, the caller gets the same
    exception and the store is as it was; when it resolves, the message names
    the email given and the store has as many records as before. *)
Theorem registerWithBiometric_failures_alike (salt : Salt)
        (email password biometricKey : string) (s : Store) :
  (forall e s',
      UserResolver.registerWithBiometric salt email password biometricKey s
      = (Err e, s') ->
      e = setupFailed /\ s' = s) /\
  (forall message s',
      UserResolver.registerWithBiometric salt email password biometricKey s
      = (Ok message, s') ->
      message = ("Biometric key added successfully for " ++ email)%string /\
      length (rows s') = length (rows s)).
Proof.
  rewrite registerWithBiometric_run.
  unfold AuthService.validateUser, UserService.findByEmail,
    Prisma.findUnique_email, bind, bcrypt_compare_async, resolve, throw.
  destruct (find (Prisma.has_email email) (rows s)) as [u0|] eqn:F.
  2:{ split; intros ? s' E; [|discriminate].
      injection E as <- <-. split; reflexivity. }
  destruct (User.password u0) as [h0|].
  2:{ split; intros ? s' E; [|discriminate].
      injection E as <- <-. split; reflexivity. }
  destruct (bcrypt_compare password h0).
  2:{ split; intros ? s' E; [|discriminate].
      injection E as <- <-. split; reflexivity. }
  destruct (includes (storedKeys u0) biometricKey).
  { split; intros ? s' E; [|discriminate].
    injection E as <- <-. split; reflexivity. }
  destruct (UserService.addBiometricKey salt (User.id u0) biometricKey s)
    as [[updated|e0] s2] eqn:A.
  - split; intros ? s' E; [discriminate|].
    injection E as <- <-. split.
    + apply find_some in F. destruct F as [_ He].
      apply String.eqb_eq in He. rewrite He. reflexivity.
    + apply addBiometricKey_resolved in A.
      destruct A as (before & target & rest & _ & R & _ & _ & _ & ->).
      simpl. rewrite R, !length_app. reflexivity.
  - apply addBiometricKey_rejection_store in A. subst s2.
    split; intros ? s' E; [|discriminate].
    injection E as <- <-. split; reflexivity.
Qed.

End ResolverOutcomes.

Section Invariants.
Context `{Bcrypt} `{JwtService}.

Lemma grown_refl (u : User.t) : grown u u.
Proof.
  repeat split. exists []. rewrite app_nil_r. reflexivity.
Qed.

Lemma grown_trans (u v w : User.t) : grown u v -> grown v w -> grown u w.
Proof.
  intros (I1 & E1 & P1 & C1 & m1 & K1) (I2 & E2 & P2 & C2 & m2 & K2).
  repeat split; try congruence.
  exists (m1 ++ m2). rewrite K2, K1, app_assoc. reflexivity.
Qed.

Lemma grown_pushed (key : string) (now : nat) (u : User.t) :
  grown u (Prisma.pushed key now u).
Proof.
  repeat split. exists [key]. apply pushed_storedKeys.
Qed.

Lemma Forall2_grown_refl (l : list User.t) : Forall2 grown l l.
Proof.
  induction l; constructor; [apply grown_refl|assumption].
Qed.

Lemma Forall2_grown_trans (l1 l2 l3 : list User.t) :
  Forall2 grown l1 l2 -> Forall2 grown l2 l3 -> Forall2 grown l1 l3.
Proof.
  intros F12. revert l3. induction F12 as [|u v l1 l2 G F12 IH]; intros l3 F23.
  - inversion F23. constructor.
  - inversion F23 as [|v' w l2' l3' G' F23' E1 E2]; subst.
    constructor; [exact (grown_trans _ _ _ G G')|apply IH; assumption].
Qed.

Lemma appendOnly_refl (s : Store) : appendOnly s s.
Proof.
  exists (rows s), []. split; [symmetry; apply app_nil_r|].
  apply Forall2_grown_refl.
Qed.

Lemma appendOnly_trans (s1 s2 s3 : Store) :
  appendOnly s1 s2 -> appendOnly s2 s3 -> appendOnly s1 s3.
Proof.
  intros (olds & news & E & F) (olds' & news' & E' & F').
  rewrite E in F'. apply Forall2_app_inv_l in F'.
  destruct F' as (l1 & l2 & F1 & F2 & ->).
  exists l1, (l2 ++ news'). split.
  - rewrite E', app_assoc. reflexivity.
  - exact (Forall2_grown_trans _ _ _ F F1).
Qed.

Lemma effect_appendOnly (s s' : Store) : effect s s' -> appendOnly s s'.
Proof.
  intros [->|[(salt & email & password & _ & ->)
             |(salt & key & before & target & rest & _ & E & _ & ->)]].
  - apply appendOnly_refl.
  - eexists (rows s), _. split; [reflexivity|apply Forall2_grown_refl].
  - eexists _, []. simpl. split; [symmetry; apply app_nil_r|].
    rewrite E. apply Forall2_app; [apply Forall2_grown_refl|].
    constructor; [apply grown_pushed|apply Forall2_grown_refl].
Qed.

(** X5: no sequence of calls that do not overlap removes a record or changes
    its id, email, password hash or creation time; a record only ever gets
    more keys at the end of its sequence; in whatever order the store lists
    them, the records it had are all among the records it has. *)
Theorem calls_keep_records (calls : list call) (s : Store) :
  keepsRecords s (run calls s) /\
  length (rows s) <= length (rows (run calls s)).
Proof.
  assert (A : appendOnly s (run calls s)).
  { revert s. induction calls as [|c calls IH]; intros s; simpl.
    - apply appendOnly_refl.
    - apply appendOnly_trans with (s2 := after s c); [|apply IH].
      apply effect_appendOnly, after_effect. }
  destruct A as (olds & news & E & F). split.
  - exists olds, news. split; [rewrite E; apply Permutation_refl|exact F].
  - rewrite E, length_app, (Forall2_length F). lia.
Qed.

Lemma has_email_none (email : string) (l : list User.t) :
  find (Prisma.has_email email) l = None ->
  ~ In email (map User.email l).
Proof.
  intros F Hin. apply in_map_iff in Hin. destruct Hin as (u & E & Hu).
  pose proof (find_none _ _ F u Hu) as X.
  unfold Prisma.has_email in X. rewrite E, String.eqb_refl in X.
  discriminate.
Qed.

Lemma find_by_unique_email (l : list User.t) (u : User.t) :
  NoDup (map User.email l) -> In u l ->
  find (Prisma.has_email (User.email u)) l = Some u.
Proof.
  induction l as [|a l IH]; simpl; intros N Hin; [destruct Hin|].
  inversion N as [|e l' Ha N']; subst.
  destruct Hin as [->|Hin].
  - unfold Prisma.has_email. rewrite String.eqb_refl. reflexivity.
  - destruct (Prisma.has_email (User.email u) a) eqn:X.
    + apply String.eqb_eq in X. destruct Ha. rewrite X.
      apply in_map. exact Hin.
    + exact (IH N' Hin).
Qed.

Lemma effect_emails (s s' : Store) :
  effect s s' ->
  NoDup (map User.email (rows s)) -> NoDup (map User.email (rows s')).
Proof.
  intros [->|[(salt & email & password & F & ->)
             |(salt & key & before & target & rest & _ & E & _ & ->)]] N.
  - exact N.
  - simpl. rewrite map_app. simpl.
    apply NoDup_app; [exact N|constructor; [intros []|constructor]|].
    intros e Hin [<-|[]]. exact (has_email_none _ _ F Hin).
  - simpl. rewrite E in N. rewrite map_app in *. exact N.
Qed.

(** X6: in every store reached from the empty one no two records share an
    email, so that [findByEmail] with the email of a record of the store
    resolves to that very record. *)
Theorem reached_emails_unique (calls : list call) :
  NoDup (map User.email (rows (run calls emptyStore))) /\
  forall u,
    In u (rows (run calls emptyStore)) ->
    UserService.findByEmail (User.email u) (run calls emptyStore)
    = (Ok (Some u), run calls emptyStore).
Proof.
  assert (N : NoDup (map User.email (rows (run calls emptyStore)))).
  { apply (run_invariant (fun s => NoDup (map User.email (rows s)))).
    - exact effect_emails.
    - constructor. }
  split; [exact N|].
  intros u Hin. unfold UserService.findByEmail, Prisma.findUnique_email.
  rewrite (find_by_unique_email _ u N Hin). reflexivity.
Qed.

Lemma effect_hashes (s s' : Store) :
  effect s s' ->
  Forall holdsHashes (rows s) -> Forall holdsHashes (rows s').
Proof.
  intros [->|[(salt & email & password & F & ->)
             |(salt & key & before & target & rest & _ & E & _ & ->)]] P.
  - exact P.
  - simpl. apply Forall_app. split; [exact P|].
    constructor; [|constructor]. split.
    + exists password, salt. reflexivity.
    + exists []. split; [reflexivity|constructor].
  - simpl. rewrite E in P. apply Forall_app in P. destruct P as [Pb Pt].
    inversion Pt as [|t r Ht Pr]; subst.
    apply Forall_app. split; [exact Pb|]. constructor; [|exact Pr].
    destruct Ht as ((password & salt' & Pw) & keys & K & Hk). split.
    + exists password, salt'. exact Pw.
    + exists (keys ++ [bcrypt_hash key 10 salt]). simpl. rewrite K.
      split; [reflexivity|]. apply Forall_app. split; [exact Hk|].
      constructor; [|constructor]. exists key, salt. reflexivity.
Qed.

(** X7: every record of a store reached from the empty one has a password
    and a key sequence, and each of these strings is an output of
    [bcrypt.hash] with cost 10: no call stores what it was given as
    password or biometric key. *)
Theorem reached_records_hold_hashes (calls : list call) (u : User.t) :
  In u (rows (run calls emptyStore)) -> holdsHashes u.
Proof.
  revert u. apply Forall_forall.
  apply (run_invariant (fun s => Forall holdsHashes (rows s))).
  - exact effect_hashes.
  - constructor.
Qed.

End Invariants.

Section Compositions.
Context `{Bcrypt} `{JwtService}.

Lemma login_run (email password : string) (s : Store) :
  UserResolver.login email password s
  = match find (Prisma.has_email email) (rows s) with
    | Some u =>
        match User.password u with
        | Some h =>
            if bcrypt_compare password h
            then (Ok (tokenFor u), s)
            else (Err (BadRequestException "Login failed"), s)
        | None => (Err (BadRequestException "Login failed"), s)
        end
    | None => (Err (BadRequestException "Login failed"), s)
    end.
Proof.
  unfold UserResolver.login, AuthService.validateUser, AuthService.login,
    UserService.findByEmail, Prisma.findUnique_email, try_catch, bind,
    bcrypt_compare_async, resolve, throw, tokenFor.
  destruct (find _ _) as [u|]; [|reflexivity].
  destruct (User.password u) as [h|]; [|reflexivity].
  destruct (bcrypt_compare password h); reflexivity.
Qed.

Lemma biometricLogin_run (biometricKey : string) (s : Store) :
  UserResolver.biometricLogin biometricKey s
  = match find (verifies biometricKey) (rows s) with
    | Some u => (Ok (tokenFor u), s)
    | None => (Err (BadRequestException "Login failed"), s)
    end.
Proof.
  unfold UserResolver.biometricLogin, AuthService.biometricLogin,
    AuthService.login, try_catch, bind, resolve, throw, tokenFor.
  rewrite findUserByBiometricKey_resolves.
  destruct (find _ _); reflexivity.
Qed.


Lemma verifies_grown (plaintext : string) (u u' : User.t) :
  grown u u' -> verifies plaintext u = true -> verifies plaintext u' = true.
Proof.
  intros (_ & _ & _ & _ & more & K) V. unfold verifies in *.
  rewrite K, existsb_app, V. reflexivity.
Qed.

(** A lookup by a test that growing does not change finds, in the grown
    list, the grown record. *)
Lemma find_grown (f : User.t -> bool) (l olds news : list User.t)
      (u : User.t) :
  (forall v v', grown v v' -> f v' = f v) ->
  Forall2 grown l olds ->
  find f l = Some u ->
  exists u', find f (olds ++ news) = Some u' /\ grown u u'.
Proof.
  intros Inv F. induction F as [|a b l olds G F IH]; simpl; [discriminate|].
  rewrite (Inv a b G). destruct (f a).
  - intros E. injection E as <-. exists b. split; [reflexivity|exact G].
  - exact IH.
Qed.

Lemma has_email_grown (email : string) (v v' : User.t) :
  grown v v' -> Prisma.has_email email v' = Prisma.has_email email v.
Proof.
  intros (_ & E & _). unfold Prisma.has_email. rewrite E. reflexivity.
Qed.

Lemma has_id_grown (id : Z) (v v' : User.t) :
  grown v v' -> Prisma.has_id id v' = Prisma.has_id id v.
Proof.
  intros (I & _). unfold Prisma.has_id. rewrite I. reflexivity.
Qed.

Lemma run_appendOnly (calls : list call) (s : Store) :
  appendOnly s (run calls s).
Proof.
  revert s. induction calls as [|c calls IH]; intros s; simpl.
  - apply appendOnly_refl.
  - apply appendOnly_trans with (s2 := after s c); [|apply IH].
    apply effect_appendOnly, after_effect.
Qed.

(** X8: once [createUser] has resolved for an email, the email stays taken:
    after any further calls, [createUser] and [register] with that email are
    rejected with the conflict exception, whatever the password, and write
    nothing. *)
Theorem email_stays_taken (salt : Salt) (email password : string)
        (s : Store) (user : User.t) (s' : Store)
        (calls : list call) (salt' : Salt) (password' : string) :
  UserService.createUser salt email password s = (Ok user, s') ->
  UserService.createUser salt' email password' (run calls s')
  = (Err (ConflictException "User already exists"), run calls s') /\
  UserResolver.register salt' email password' (run calls s')
  = (Err (ConflictException "User already exists"), run calls s').
Proof.
  intros E.
  assert (F : find (Prisma.has_email email) (rows s') <> None).
  { destruct (find (Prisma.has_email email) (rows s)) as [u|] eqn:F0.
    - rewrite (createUser_taken _ _ _ _ u F0) in E. discriminate.
    - rewrite (createUser_fresh _ _ _ _ F0) in E. injection E as _ <-.
      simpl. rewrite (find_after _ _ _ F0). simpl.
      unfold Prisma.has_email at 1. simpl. rewrite String.eqb_refl.
      discriminate. }
  destruct (find (Prisma.has_email email) (rows s')) as [u|] eqn:Fu;
    [clear F|destruct (F eq_refl)].
  destruct (run_appendOnly calls s') as (olds & news & R & G).
  destruct (find_grown _ _ olds news u (has_email_grown email) G Fu)
    as (u' & F' & _).
  rewrite <- R in F'.
  assert (X : UserService.createUser salt' email password' (run calls s')
              = (Err (ConflictException "User already exists"),
                 run calls s'))
    by exact (createUser_taken _ _ _ _ u' F').
  split; [exact X|].
  unfold UserResolver.register, try_catch, bind. rewrite X. reflexivity.
Qed.

(** X9: in a store where emails are unique, a password login that succeeds
    keeps succeeding after any further calls that do not overlap, and for the
    same user: the later token is signed over the email and id of a record
    that has the email, id and password hash of the one first found; emails
    stay unique. *)
Theorem login_keeps_succeeding (email password : string) (s s0 : Store)
        (response : AuthResponse) (calls : list call) :
  NoDup (map User.email (rows s)) ->
  UserResolver.login email password s = (Ok response, s0) ->
  exists u u',
    UserService.findByEmail email s = (Ok (Some u), s) /\
    response = tokenFor u /\
    UserService.findByEmail email (run calls s)
    = (Ok (Some u'), run calls s) /\
    UserResolver.login email password (run calls s)
    = (Ok (tokenFor u'), run calls s) /\
    User.id u' = User.id u /\
    User.email u' = User.email u /\
    User.password u' = User.password u /\
    NoDup (map User.email (rows (run calls s))).
Proof.
  intros N. rewrite !login_run.
  unfold UserService.findByEmail, Prisma.findUnique_email.
  destruct (find (Prisma.has_email email) (rows s)) as [u|] eqn:F;
    [|discriminate].
  destruct (User.password u) as [h|] eqn:P; [|discriminate].
  destruct (bcrypt_compare password h) eqn:C; [|discriminate].
  intros E. injection E as <- _.
  destruct (run_appendOnly calls s) as (olds & news & R & G).
  destruct (find_grown _ _ olds news u (has_email_grown email) G F)
    as (u' & F' & Gu).
  rewrite <- R in F'. pose proof Gu as (I & Em & P' & _).
  exists u, u'. rewrite F', P', P, C.
  repeat split; trivial.
  apply (run_invariant (fun s' => NoDup (map User.email (rows s')))).
  - exact effect_emails.
  - exact N.
Qed.

(** X10: a biometric key a user has, the user keeps: if
    [biometricKeyExists] resolved to true, it resolves to true after any
    further calls. *)
Theorem biometricKeyExists_stays_true (userId : Z) (biometricKey : string)
        (s : Store) (calls : list call) :
  UserService.biometricKeyExists userId biometricKey s = (Ok true, s) ->
  UserService.biometricKeyExists userId biometricKey (run calls s)
  = (Ok true, run calls s).
Proof.
  rewrite !biometricKeyExists_run.
  destruct (find (Prisma.has_id userId) (rows s)) as [u|] eqn:F;
    [|discriminate].
  intros E. injection E as V.
  destruct (run_appendOnly calls s) as (olds & news & R & G).
  destruct (find_grown _ _ olds news u (has_id_grown userId) G F)
    as (u' & F' & Gu).
  rewrite R, F', (verifies_grown _ _ _ Gu V). reflexivity.
Qed.

Hypothesis compare_hash :
  forall (s : string) (rounds : nat) (salt : Salt),
    bcrypt_compare s (bcrypt_hash s rounds salt) = true.


(** X12: after [register] has resolved, the resolver's [login] with the same
    email and password resolves to the token over that email and the id the
    store assigned. *)
Theorem register_then_login (salt : Salt) (email password : string)
        (s : Store) (message : string) (s' : Store) :
  UserResolver.register salt email password s = (Ok message, s') ->
  UserResolver.login email password s'
  = (Ok (mkAuthResponse (jwt_sign (mkJwtPayload email (nextId s)))), s').
Proof.
  unfold UserResolver.register, try_catch, bind.
  destruct (find (Prisma.has_email email) (rows s)) as [u|] eqn:F.
  - rewrite (createUser_taken _ _ _ _ u F). discriminate.
  - rewrite (createUser_fresh _ _ _ _ F). intros E. injection E as _ <-.
    rewrite login_run. simpl. rewrite (find_after _ _ _ F). simpl.
    unfold Prisma.has_email at 1. simpl. rewrite String.eqb_refl. simpl.
    rewrite compare_hash. reflexivity.
Qed.



End Compositions.

Section Persistence.
Context `{Bcrypt} `{JwtService}.

Lemma find_found_first {A} (f : A -> bool) (l l' : list A) (x : A) :
  find f l = Some x -> find f (l ++ l') = Some x.
Proof.
  induction l as [|a l IH]; simpl; [discriminate|].
  destruct (f a); [trivial|exact IH].
Qed.

(** Replacing a record by one the test cannot tell from it moves no
    lookup. *)
Lemma find_replaced {A} (f : A -> bool) (before rest : list A) (x x' u : A) :
  f x' = f x ->
  find f (before ++ x :: rest) = Some u ->
  exists u',
    find f (before ++ x' :: rest) = Some u' /\
    (u' = u \/ (u = x /\ u' = x')).
Proof.
  intros E. induction before as [|a before IH]; simpl.
  - rewrite E. destruct (f x).
    + intros X. injection X as <-. exists x'. auto.
    + intros X. exists u. auto.
  - destruct (f a).
    + intros X. exists u. auto.
    + exact IH.
Qed.

Lemma ids_below_next (s s' : Store) :
  effect s s' ->
  NoDup (map User.id (rows s)) /\
  (forall u, In u (rows s) -> (User.id u < nextId s)%Z) ->
  NoDup (map User.id (rows s')) /\
  (forall u, In u (rows s') -> (User.id u < nextId s')%Z).
Proof.
  intros [->|[(salt & email & password & F & ->)
             |(salt & key & before & target & rest & _ & E & _ & ->)]]
         [N B].
  - split; assumption.
  - simpl. split.
    + rewrite map_app. simpl.
      apply NoDup_app; [exact N|constructor; [intros []|constructor]|].
      intros i Hin [<-|[]]. apply in_map_iff in Hin.
      destruct Hin as (u & Eu & Hu). specialize (B u Hu). lia.
    + intros u Hin. apply in_app_or in Hin.
      destruct Hin as [Hin|[<-|[]]]; [specialize (B u Hin)|simpl]; lia.
  - simpl. rewrite E in N, B. split.
    + rewrite map_app in *. exact N.
    + intros u Hin. apply in_app_or in Hin.
      destruct Hin as [Hin|[<-|Hin]].
      * apply B, in_or_app. left. exact Hin.
      * simpl. apply B, in_or_app. right. left. reflexivity.
      * apply B, in_or_app. right. right. exact Hin.
Qed.

(** The ids of a store reached from the empty one are unique. *)
Lemma reached_ids_unique (calls : list call) :
  NoDup (map User.id (rows (run calls emptyStore))).
Proof.
  apply (run_invariant
           (fun s => NoDup (map User.id (rows s)) /\
                     forall u, In u (rows s) -> (User.id u < nextId s)%Z)).
  - exact ids_below_next.
  - split; [constructor|intros u []].
Qed.

Hypothesis compare_same :
  forall (s s0 : string) (rounds : nat) (salt : Salt) (h : string),
    bcrypt_compare s (bcrypt_hash s0 rounds salt) = true ->
    bcrypt_compare s h = true ->
    bcrypt_compare s0 h = true.

Lemma effect_keeps_first_match (biometricKey : string) (s s' : Store)
      (u : User.t) :
  effect s s' ->
  find (verifies biometricKey) (rows s) = Some u ->
  exists u', find (verifies biometricKey) (rows s') = Some u' /\ grown u u'.
Proof.
  intros [->|[(salt & email & password & _ & ->)
             |(salt & key & before & target & rest & Fk & E & _ & ->)]] F.
  - exists u. split; [exact F|apply grown_refl].
  - exists u. simpl. split; [exact (find_found_first _ _ _ _ F)|].
    apply grown_refl.
  - simpl.
    assert (C : bcrypt_compare biometricKey (bcrypt_hash key 10 salt)
                = false).
    { destruct (bcrypt_compare biometricKey (bcrypt_hash key 10 salt)) eqn:C;
        [|reflexivity].
      pose proof (find_some _ _ F) as [Hin V].
      apply verifies_true in V. destruct V as (h & Hh & Ch).
      pose proof (compare_same _ _ _ _ h C Ch) as Ck.
      pose proof (find_none _ _ Fk u Hin) as X.
      apply verifies_false with (h := h) in X; [|exact Hh]. congruence. }
    rewrite E in F.
    destruct (find_replaced (verifies biometricKey) before rest target
                (Prisma.pushed (bcrypt_hash key 10 salt) (clock s) target) u)
      as (u' & F' & [->|[-> ->]]); trivial.
    + rewrite verifies_pushed, C, orb_false_r. reflexivity.
    + exists u. split; [exact F'|apply grown_refl].
    + eexists. split; [exact F'|apply grown_pushed].
Qed.

Lemma effect_keeps_at_most_one (biometricKey : string) (s s' : Store) :
  effect s s' ->
  length (matchingUsers biometricKey s) <= 1 ->
  length (matchingUsers biometricKey s') <= 1.
Proof.
  intros [->|[(salt & email & password & _ & ->)
             |(salt & key & before & target & rest & Fk & E & _ & ->)]] One.
  - exact One.
  - unfold matchingUsers in *. simpl.
    rewrite filter_app, length_app. simpl. lia.
  - unfold matchingUsers in *. simpl.
    rewrite E, filter_length_split in One.
    rewrite filter_length_split, verifies_pushed.
    destruct (bcrypt_compare biometricKey (bcrypt_hash key 10 salt)) eqn:C.
    + assert (N : forall y, In y (rows s) -> verifies biometricKey y = false).
      { intros y Hy. destruct (verifies biometricKey y) eqn:V; [|reflexivity].
        apply verifies_true in V. destruct V as (h & Hh & Ch).
        pose proof (compare_same _ _ _ _ h C Ch) as Ck.
        pose proof (find_none _ _ Fk y Hy) as X.
        apply verifies_false with (h := h) in X; [|exact Hh]. congruence. }
      rewrite !filter_none.
      * simpl. destruct (_ || _); lia.
      * intros y Hy. apply N. rewrite E. apply in_or_app. right. right.
        exact Hy.
      * intros y Hy. apply N. rewrite E. apply in_or_app. left. exact Hy.
    + rewrite orb_false_r. exact One.
Qed.

(** X14: when the key verifies against the hashes of one record only, a
    biometric login that succeeds keeps succeeding after any further calls
    that do not overlap, and for the same user: the later token is signed
    over the email and id of the record first found, which stays the only
    record the key verifies against. *)
Theorem biometricLogin_keeps_succeeding (biometricKey : string)
        (s s0 : Store) (response : AuthResponse) (calls : list call) :
  length (matchingUsers biometricKey s) <= 1 ->
  UserResolver.biometricLogin biometricKey s = (Ok response, s0) ->
  exists u u',
    In u (rows s) /\ verifies biometricKey u = true /\
    response = tokenFor u /\
    UserResolver.biometricLogin biometricKey (run calls s)
    = (Ok (tokenFor u'), run calls s) /\
    In u' (rows (run calls s)) /\
    User.id u' = User.id u /\
    User.email u' = User.email u /\
    length (matchingUsers biometricKey (run calls s)) <= 1.
Proof.
  intros One. rewrite !biometricLogin_run.
  destruct (find (verifies biometricKey) (rows s)) as [u|] eqn:F;
    [|discriminate].
  intros E. injection E as <- _.
  assert (K : exists u', find (verifies biometricKey) (rows (run calls s))
                         = Some u' /\ grown u u').
  { apply (run_invariant
             (fun s' => exists u', find (verifies biometricKey) (rows s')
                                   = Some u' /\ grown u u')).
    - intros s1 s2 Eff (u1 & F1 & G1).
      destruct (effect_keeps_first_match biometricKey s1 s2 u1 Eff F1)
        as (u2 & F2 & G2).
      exists u2. split; [exact F2|exact (grown_trans _ _ _ G1 G2)].
    - exists u. split; [exact F|apply grown_refl]. }
  destruct K as (u' & F' & (I & Em & _)).
  exists u, u'. rewrite F'.
  pose proof (find_some _ _ F) as [Hin V].
  pose proof (find_some _ _ F') as [Hin' _].
  repeat split; trivial.
  apply (run_invariant
           (fun s' => length (matchingUsers biometricKey s') <= 1)).
  - exact (effect_keeps_at_most_one biometricKey).
  - exact One.
Qed.

End Persistence.

(** * The further properties on the small instance *)

(** carol's email is free, alice's is taken. *)
Lemma register_message_or_conflict_witness :
  @UserResolver.register Toy.bcrypt "$"%char "c@x.com" "pw3" Toy.store2
  = (Ok "User c@x.com registered successfully",
     mkStore (rows Toy.store2
                ++ [@created Toy.bcrypt Toy.store2 "$"%char "c@x.com" "pw3"])
             4 4) /\
  @UserResolver.register Toy.bcrypt "$"%char "a@x.com" "pw9" Toy.store2
  = (Err (ConflictException "User already exists"), Toy.store2).
Proof.
  split.
  - destruct (@register_message_or_conflict Toy.bcrypt
                "$"%char "c@x.com" "pw3" Toy.store2) as (_ & Free & _).
    apply Free. intros u [<-|[<-|[]]]; discriminate.
  - destruct (@register_message_or_conflict Toy.bcrypt
                "$"%char "a@x.com" "pw9" Toy.store2) as (Taken & _).
    apply (Taken Toy.alice); [simpl; left; reflexivity|reflexivity].
Defined.

(** alice logs in with her password. *)
Lemma login_token_or_login_failed_witness :
  @UserResolver.login Toy.bcrypt Toy.jwt "a@x.com" "pw1" Toy.store2
  = (Ok (@tokenFor Toy.jwt Toy.alice), Toy.store2).
Proof.
  destruct (@login_token_or_login_failed Toy.bcrypt Toy.jwt
              "a@x.com" "pw1" Toy.store2) as (Verified & _).
  apply (Verified Toy.alice "$pw1"); reflexivity.
Defined.

(** [bio1] logs someone in. *)
Lemma biometricLogin_token_or_login_failed_witness :
  exists v,
    @UserResolver.biometricLogin Toy.bcrypt Toy.jwt "bio1" Toy.store2
    = (Ok (@tokenFor Toy.jwt v), Toy.store2).
Proof.
  destruct (@biometricLogin_token_or_login_failed Toy.bcrypt Toy.jwt
              "bio1" Toy.store2) as (_ & _ & Matched).
  apply (Matched Toy.alice "#bio1").
  - simpl. left. reflexivity.
  - simpl. left. reflexivity.
  - reflexivity.
Defined.

(** A wrong password fails the biometric registration like anything else. *)
Lemma registerWithBiometric_failures_alike_witness :
  exists e s',
    @UserResolver.registerWithBiometric Toy.bcrypt
      "%"%char "a@x.com" "wrong" "bio7" Toy.store2 = (Err e, s') /\
    e = setupFailed /\ s' = Toy.store2.
Proof.
  destruct (@registerWithBiometric_failures_alike Toy.bcrypt
              "%"%char "a@x.com" "wrong" "bio7" Toy.store2) as (Failed & _).
  exists (BadRequestException "Failed to set up biometric key"), Toy.store2.
  split; [reflexivity|].
  apply Failed. reflexivity.
Defined.

(** bob is found under his email in the store the scenario built. *)
Lemma reached_emails_unique_witness :
  @UserService.findByEmail "b@x.com"
    (@run Toy.bcrypt Toy.jwt Toy.history emptyStore)
  = (Ok (Some Toy.bob), @run Toy.bcrypt Toy.jwt Toy.history emptyStore).
Proof.
  destruct (@reached_emails_unique Toy.bcrypt Toy.jwt Toy.history)
    as (_ & Lookup).
  apply (Lookup Toy.bob). simpl. right. left. reflexivity.
Defined.

(** alice's record, in the store the scenario built, holds hashes. *)
Lemma reached_records_hold_hashes_witness :
  In Toy.alice (rows (@run Toy.bcrypt Toy.jwt Toy.history emptyStore)) /\
  @holdsHashes Toy.bcrypt Toy.alice.
Proof.
  assert (Hin : In Toy.alice
                   (rows (@run Toy.bcrypt Toy.jwt Toy.history emptyStore)))
    by (simpl; left; reflexivity).
  split; [exact Hin|].
  exact (@reached_records_hold_hashes Toy.bcrypt Toy.jwt Toy.history
           Toy.alice Hin).
Defined.

(** alice's email cannot be registered again after bob has registered. *)
Lemma email_stays_taken_witness :
  @UserResolver.register Toy.bcrypt "!"%char "a@x.com" "other"
    (@run Toy.bcrypt Toy.jwt
       [@Register Toy.bcrypt "$"%char "b@x.com" "pw2"]
       (mkStore [Toy.alice0] 2 1))
  = (Err (ConflictException "User already exists"),
     @run Toy.bcrypt Toy.jwt
       [@Register Toy.bcrypt "$"%char "b@x.com" "pw2"]
       (mkStore [Toy.alice0] 2 1)).
Proof.
  apply (@email_stays_taken Toy.bcrypt Toy.jwt "$"%char "a@x.com" "pw1"
           emptyStore Toy.alice0 (mkStore [Toy.alice0] 2 1)
           [@Register Toy.bcrypt "$"%char "b@x.com" "pw2"]
           "!"%char "other").
  reflexivity.
Defined.

(** alice's password login still succeeds, for alice, after her biometric
    registration. *)
Lemma login_keeps_succeeding_witness :
  exists u',
    @UserResolver.login Toy.bcrypt Toy.jwt "a@x.com" "pw1"
      (@run Toy.bcrypt Toy.jwt
         [@RegisterWithBiometric Toy.bcrypt "#"%char "a@x.com" "pw1" "bio1"]
         Toy.registered)
    = (Ok (@tokenFor Toy.jwt u'),
       @run Toy.bcrypt Toy.jwt
         [@RegisterWithBiometric Toy.bcrypt "#"%char "a@x.com" "pw1" "bio1"]
         Toy.registered) /\
    User.id u' = 1%Z /\ User.email u' = "a@x.com".
Proof.
  destruct (@login_keeps_succeeding Toy.bcrypt Toy.jwt "a@x.com" "pw1"
              Toy.registered Toy.registered (@tokenFor Toy.jwt Toy.alice0)
              [@RegisterWithBiometric Toy.bcrypt
                 "#"%char "a@x.com" "pw1" "bio1"])
    as (u & u' & Fu & _ & _ & Later & I & Em & _).
  - simpl. constructor.
    + simpl. intros [E|[]]. discriminate.
    + constructor; [intros []|constructor].
  - reflexivity.
  - injection Fu as <-. exists u'. split; [exact Later|].
    split; [exact I|exact Em].
Defined.

(** alice still has [bio1] after carol has registered. *)
Lemma biometricKeyExists_stays_true_witness :
  @UserService.biometricKeyExists Toy.bcrypt 1 "bio1"
    (@run Toy.bcrypt Toy.jwt
       [@Register Toy.bcrypt "$"%char "c@x.com" "pw3"] Toy.store2)
  = (Ok true,
     @run Toy.bcrypt Toy.jwt
       [@Register Toy.bcrypt "$"%char "c@x.com" "pw3"] Toy.store2).
Proof.
  apply (@biometricKeyExists_stays_true Toy.bcrypt Toy.jwt 1%Z "bio1"
           Toy.store2).
  reflexivity.
Defined.


(** carol registers and logs in; the store gave her id 3. *)
Lemma register_then_login_witness :
  @UserResolver.login Toy.bcrypt Toy.jwt "c@x.com" "pw3"
    (mkStore (rows Toy.store2
                ++ [@created Toy.bcrypt Toy.store2 "$"%char "c@x.com" "pw3"])
             4 4)
  = (Ok (mkAuthResponse (Toy.sign (mkJwtPayload "c@x.com" 3))),
     mkStore (rows Toy.store2
                ++ [@created Toy.bcrypt Toy.store2 "$"%char "c@x.com" "pw3"])
             4 4).
Proof.
  apply (@register_then_login Toy.bcrypt Toy.jwt toy_compare_hash
           "$"%char "c@x.com" "pw3" Toy.store2
           "User c@x.com registered successfully").
  reflexivity.
Defined.


(** [bio1] still logs alice in after bob has added a key of his own. *)
Lemma biometricLogin_keeps_succeeding_witness :
  exists u',
    @UserResolver.biometricLogin Toy.bcrypt Toy.jwt "bio1"
      (@run Toy.bcrypt Toy.jwt
         [@AddBiometricKey Toy.bcrypt "%"%char 2%Z "bio2"] Toy.store2)
    = (Ok (@tokenFor Toy.jwt u'),
       @run Toy.bcrypt Toy.jwt
         [@AddBiometricKey Toy.bcrypt "%"%char 2%Z "bio2"] Toy.store2) /\
    User.id u' = 1%Z /\ User.email u' = "a@x.com".
Proof.
  destruct (@biometricLogin_keeps_succeeding Toy.bcrypt Toy.jwt
              toy_compare_same "bio1" Toy.store2 Toy.store2
              (@tokenFor Toy.jwt Toy.alice)
              [@AddBiometricKey Toy.bcrypt "%"%char 2%Z "bio2"])
    as (u & u' & Hin & V & _ & Later & _ & I & Em & _).
  - simpl. lia.
  - reflexivity.
  - assert (u = Toy.alice) as ->.
    { simpl in Hin. destruct Hin as [<-|[<-|[]]]; [reflexivity|].
      discriminate V. }
    exists u'. split; [exact Later|]. split; [exact I|exact Em].
Defined.

(** * Calls that overlap *)

Section Overlapping.
Context `{Bcrypt} `{JwtService}.

(** The two halves are the whole of [addBiometricKey]. *)
Lemma addBiometricKey_two_awaits (salt : Salt) (userId : Z)
      (biometricKey : string) (s : Store) :
  UserService.addBiometricKey salt userId biometricKey s
  = bind (addBiometricKey_scan biometricKey)
         (addBiometricKey_write salt userId biometricKey) s.
Proof. reflexivity. Qed.

(** With nothing in between, scan and write are the call. *)
Lemma interleave_scan_write (salt : Salt) (userId : Z) (biometricKey : string)
      (s : Store) :
  interleave [Scan salt userId biometricKey; Write 0] s
  = after s (AddBiometricKey salt userId biometricKey).
Proof.
  unfold interleave. simpl.
  rewrite addBiometricKey_two_awaits. unfold bind, addBiometricKey_scan.
  rewrite findUserByBiometricKey_resolves. reflexivity.
Qed.

Lemma awaited_whole_calls (calls : list call) (s : Store)
      (suspended : list Suspended) :
  fold_left awaited (map Whole calls) (s, suspended)
  = (run calls s, suspended).
Proof.
  revert s. induction calls as [|c calls IH]; intros s; simpl.
  - reflexivity.
  - apply IH.
Qed.

(** Whole calls interleave to their run. *)
Lemma interleave_whole_calls (calls : list call) (s : Store) :
  interleave (map Whole calls) s = run calls s.
Proof.
  unfold interleave. rewrite awaited_whole_calls. reflexivity.
Qed.

End Overlapping.

(** C1, as stated, fails: when alice's and bob's [addBiometricKey] for the
    same plaintext both scan before either writes, both writes go through
    and the key verifies against a hash of each of the two records. *)
Lemma overlapping_adds_share_a_key :
  ~ length (@matchingUsers Toy.bcrypt "bio1"
              (@interleave Toy.bcrypt Toy.jwt raceForBio1 emptyStore)) <= 1.
Proof.
  vm_compute. intros L. apply (proj1 (Nat.le_ngt 2 1) L). lia.
Qed.
